(** * Random Fourier features: a shallow embedding of [rff.py]

    The development follows the Python module top-down:
    - [Py]: exceptions, results and the state-and-exception monad in which
      the methods that touch NumPy's global generator are written;
    - [Numpy]: dense two-dimensional arrays over an abstract scalar type,
      with the array operations the module uses ([@], [.T], broadcasting
      [+], [np.cos], [np.diag], fancy row indexing, [pdist], [np.median]);
    - the interfaces of the external collaborators (NumPy's legacy global
      [RandomState], [np.linalg.qr], scikit-learn's [PCA] and classifier);
    - the three feature creators and [RFFPipeline];
    - the theorems. *)

From Stdlib Require Import List Arith PeanoNat Lia Bool.
From Stdlib Require Import Permutation.
From Stdlib Require Import Reals Lra.
Import ListNotations.


(* ===================================================================== *)
(** ** Python results and exceptions *)
(* ===================================================================== *)

Module Py.

(** The exception classes that matter for [rff.py].  The first four are
    the built-in classes that NumPy and the interpreter raise on the
    paths of the module; the last five are the error kinds named by the
    specification's taxonomy.  No [raise] statement occurs in the module,
    so the embedding never constructs one of the last five. *)
Inductive exn : Type :=
| ValueError
| AttributeError
| TypeError
| IndexError
| InsufficientDataError
| NotFittedError
| DimensionMismatchError
| OrthogonalizationRankError
| EmptyDatasetError.

Inductive result (A : Type) : Type :=
| Ok (a : A)
| Raise (e : exn).

Arguments Ok {A} a.
Arguments Raise {A} e.

(** A computation over a mutable store [S] that may raise.  The store
    survives an exception, as Python's heap does. *)
Definition M (S A : Type) : Type := S -> result A * S.

Definition ret {S A} (a : A) : M S A := fun s => (Ok a, s).

Definition bind {S A B} (c : M S A) (k : A -> M S B) : M S B :=
  fun s =>
    match c s with
    | (Ok a, s') => k a s'
    | (Raise e, s') => (Raise e, s')
    end.

(** A pure fallible value used inside a stateful computation. *)
Definition lift {S A} (r : result A) : M S A := fun s => (r, s).

Definition get {S} : M S S := fun s => (Ok s, s).

Definition put {S} (s : S) : M S unit := fun _ => (Ok tt, s).

End Py.

Import Py.

Declare Scope py_scope.
Delimit Scope py_scope with py.
Notation "x <- c ;; k" := (bind c (fun x => k))
  (at level 61, c at next level, right associativity) : py_scope.
Notation "c ;;; k" := (bind c (fun _ => k))
  (at level 61, right associativity) : py_scope.
Local Open Scope py_scope.

(* ===================================================================== *)
(** ** Scalars *)
(* ===================================================================== *)

(** The element type of the arrays ([float64] in the program).  The
    development is parametric in it: only the operations are named, and
    no law of real arithmetic is assumed unless a theorem says so. *)
Class Scalar (F : Type) : Type := {
  f0 : F;
  f1 : F;
  f2 : F;
  fpi : F;
  fnan : F;
  fadd : F -> F -> F;
  fsub : F -> F -> F;
  fmul : F -> F -> F;
  fdiv : F -> F -> F;
  fneg : F -> F;
  fsqrt : F -> F;
  fcos : F -> F;
  fleb : F -> F -> bool
}.

(* ===================================================================== *)
(** ** Arrays *)
(* ===================================================================== *)

Section Numpy.

Context {F : Type} `{Scalar F}.

(** A two-dimensional array: its rows, and its column count (which the
    rows alone would not determine when there are none).  The shape is
    [(nrows, ncols)]. *)
Record ndarray : Type := mkArr {
  ncols : nat;
  rows : list (list F)
}.

Definition nrows (A : ndarray) : nat := length (rows A).

Definition shape (A : ndarray) : nat * nat := (nrows A, ncols A).

(** Every row has [ncols] entries. *)
Definition wf (A : ndarray) : bool :=
  forallb (fun r => length r =? ncols A) (rows A).

Definition row (A : ndarray) (i : nat) : list F := nth i (rows A) [].

Definition entry (A : ndarray) (i j : nat) : F := nth j (row A i) f0.

(** [A.T] *)
Definition T (A : ndarray) : ndarray :=
  mkArr (nrows A)
        (map (fun j => map (fun r => nth j r f0) (rows A)) (seq 0 (ncols A))).

(** The inner product of two vectors: the sum of the pairwise products. *)
Definition dot (u v : list F) : F :=
  fold_right fadd f0 (map (fun p => fmul (fst p) (snd p)) (combine u v)).

(** [A @ B]; NumPy raises [ValueError] when the inner dimensions differ. *)
Definition matmul (A B : ndarray) : result ndarray :=
  if ncols A =? nrows B
  then Ok (mkArr (ncols B)
                 (map (fun ra => map (fun cb => dot ra cb) (rows (T B)))
                      (rows A)))
  else Raise ValueError.

(** [A + v] for a two-dimensional [A] and a one-dimensional [v], by
    NumPy's broadcasting rule: the trailing dimensions must agree or one
    of them must be 1. *)
Definition add_broadcast (A : ndarray) (v : list F) : result ndarray :=
  if length v =? ncols A then
    Ok (mkArr (ncols A)
              (map (fun r => map (fun p => fadd (fst p) (snd p)) (combine r v))
                   (rows A)))
  else if length v =? 1 then
    Ok (mkArr (ncols A)
              (map (fun r => map (fun x => fadd x (nth 0 v f0)) r) (rows A)))
  else if ncols A =? 1 then
    Ok (mkArr (length v)
              (map (fun r => map (fun y => fadd (nth 0 r f0) y) v) (rows A)))
  else Raise ValueError.

(** [np.cos(A)] *)
Definition np_cos (A : ndarray) : ndarray :=
  mkArr (ncols A) (map (map fcos) (rows A)).

(** [np.sqrt] on a vector. *)
Definition np_sqrt (v : list F) : list F := map fsqrt v.

(** [np.diag(v)] for a one-dimensional [v]. *)
Definition np_diag (v : list F) : ndarray :=
  mkArr (length v)
        (map (fun i => map (fun j => if i =? j then nth i v f0 else f0)
                           (seq 0 (length v)))
             (seq 0 (length v))).

(** [A[idx]] for an integer index array: the listed rows, in order.
    An index outside the array raises [IndexError]. *)
Fixpoint take_rows_list (rs : list (list F)) (idx : list nat)
  : result (list (list F)) :=
  match idx with
  | [] => Ok []
  | i :: idx' =>
      match nth_error rs i with
      | None => Raise IndexError
      | Some r =>
          match take_rows_list rs idx' with
          | Ok rest => Ok (r :: rest)
          | Raise e => Raise e
          end
      end
  end.

Definition take_rows (A : ndarray) (idx : list nat) : result ndarray :=
  match take_rows_list (rows A) idx with
  | Ok rs => Ok (mkArr (ncols A) rs)
  | Raise e => Raise e
  end.

(** The squared Euclidean distance of two rows. *)
Definition sqeuclidean (u v : list F) : F :=
  fold_right fadd f0
    (map (fun p => fmul (fsub (fst p) (snd p)) (fsub (fst p) (snd p)))
         (combine u v)).

(** [pdist(A, metric="sqeuclidean")]: the condensed distance vector, one
    entry for every pair of rows [i < j], in row-major order. *)
Fixpoint pdist_rows (rs : list (list F)) : list F :=
  match rs with
  | [] => []
  | r :: rest => map (sqeuclidean r) rest ++ pdist_rows rest
  end.

Definition pdist (A : ndarray) : list F := pdist_rows (rows A).

(** Sorting by [fleb], for the median. *)
Fixpoint insert (x : F) (l : list F) : list F :=
  match l with
  | [] => [x]
  | y :: l' => if fleb x y then x :: l else y :: insert x l'
  end.

Fixpoint sort (l : list F) : list F :=
  match l with
  | [] => []
  | x :: l' => insert x (sort l')
  end.

(** [np.median(v)]: the middle element of the sorted data, or the mean of
    the two middle elements when the length is even; [nan] on an empty
    vector. *)
Definition np_median (v : list F) : F :=
  let n := length v in
  let s := sort v in
  if n =? 0 then fnan
  else if Nat.even n
       then fdiv (fadd (nth (n / 2 - 1) s f0) (nth (n / 2) s f0)) f2
       else nth (n / 2) s f0.

End Numpy.

Arguments ndarray F : clear implicits.

(* ===================================================================== *)
(** ** External collaborators *)
(* ===================================================================== *)

(** NumPy's legacy global generator (the functions of [np.random] that the
    module calls).  [G] is the hidden state of the generator; every draw is
    a computation over it.  [choice a k] is
    [np.random.choice(a, size=k, replace=False)], [normal loc scale r c] is
    [np.random.normal(loc, scale, (r, c))], [uniform lo hi n] is
    [np.random.uniform(lo, hi, size=(n,))] and [chisquare df n] is
    [np.random.chisquare(df=df, size=(n,))]. *)
Class RandomState (F G : Type) : Type := {
  np_random_seed : nat -> G;
  choice : nat -> nat -> M G (list nat);
  normal : F -> F -> nat -> nat -> M G (ndarray F);
  uniform : F -> F -> nat -> M G (list F);
  chisquare : nat -> nat -> M G (list F)
}.

(** What NumPy documents about the shapes and the failures of these draws.
    Sampling without replacement raises [ValueError] when the sample is
    larger than the population, and otherwise returns distinct indices of
    the population; [chisquare] raises [ValueError] unless [df > 0].
    [normal] raises only on a negative scale, and the scale it is given
    here is a square root, so its draw is taken to return. *)
Class RandomStateSpec (F G : Type) `{RandomState F G} : Prop := {
  choice_too_large : forall a k g,
    a < k -> choice a k g = (Raise ValueError, g);
  choice_sample : forall a k g,
    k <= a ->
    exists idx g',
      choice a k g = (Ok idx, g') /\
      length idx = k /\ NoDup idx /\ Forall (fun i => i < a) idx;
  normal_shape : forall loc scale r c g,
    exists W g',
      normal loc scale r c g = (Ok W, g') /\
      nrows W = r /\ ncols W = c /\ wf W = true;
  uniform_shape : forall lo hi n g,
    exists v g', uniform lo hi n g = (Ok v, g') /\ length v = n;
  chisquare_df0 : forall n g,
    chisquare 0 n g = (Raise ValueError, g);
  chisquare_shape : forall df n g,
    0 < df ->
    exists v g', chisquare df n g = (Ok v, g') /\ length v = n
}.

(** [np.linalg.qr] in its default (reduced) mode: for an [m x n] input the
    first factor has shape [m x min(m, n)]. *)
Class QR (F : Type) : Type := {
  qr : ndarray F -> ndarray F * ndarray F
}.

Class QRSpec (F : Type) `{QR F} : Prop := {
  qr_shape : forall A : ndarray F,
    wf A = true ->
    nrows (fst (qr A)) = nrows A /\
    ncols (fst (qr A)) = Nat.min (nrows A) (ncols A) /\
    wf (fst (qr A)) = true
}.

(** scikit-learn's [PCA]: [pca_fit_transform k X] is
    [PCA(n_components=k).fit_transform(X)] on a fresh object and yields the
    fitted object with the reduced data. *)
Class Reducer (F P : Type) : Type := {
  pca_fit_transform : nat -> ndarray F -> result (P * ndarray F);
  pca_transform : P -> ndarray F -> result (ndarray F)
}.

(** The classifier class handed to the pipeline: [C] is the state of a
    classifier object, [Y] the type of a label vector, [Kw] the type of the
    keyword arguments of the constructor. *)
Class Classifier (F C Y Kw : Type) : Type := {
  kw_max_iter : nat -> Kw;
  clf_init : Kw -> C;
  clf_fit : ndarray F -> Y -> M C unit;
  clf_predict : C -> ndarray F -> result Y;
  clf_predict_proba : C -> ndarray F -> result (ndarray F)
}.

(* ===================================================================== *)
(** ** The feature creators *)
(* ===================================================================== *)

(** The three classes of the inheritance chain
    [FeatureCreatorPlaceholder <- RandomFeatureCreator <-
     OrthogonalRandomFeatureCreator]. *)
Inductive creator_class : Type :=
| FeatureCreatorPlaceholder
| RandomFeatureCreator
| OrthogonalRandomFeatureCreator.

Module FeatureCreator.
Section FeatureCreator.

Context {F G : Type} `{Scalar F} `{RandomState F G} `{QR F}.

(** The attributes set by [__init__], together with the class of the
    object, which selects the method bodies. *)
Record t : Type := mk {
  class_ : creator_class;
  n_features : nat;
  new_dim : nat;
  w : option (ndarray F);
  b : option (list F);
  func : F -> F
}.

(** [FeatureCreatorPlaceholder.__init__], inherited by both subclasses. *)
Definition init (cls : creator_class) (n_features new_dim : nat)
    (func : F -> F) : t :=
  mk cls n_features new_dim None None func.

Definition set_w (self : t) (W : ndarray F) : t :=
  mk (class_ self) (n_features self) (new_dim self) (Some W) (b self)
     (func self).

Definition set_b (self : t) (v : list F) : t :=
  mk (class_ self) (n_features self) (new_dim self) (w self) (Some v)
     (func self).

(** The bandwidth expression that opens both [fit] bodies:
    [np.median(pdist(X[np.random.choice(X.shape[0], size=1000,
      replace=False)], metric="sqeuclidean"))]. *)
Definition sigma_of (X : ndarray F) : M G F :=
  idx <- choice (nrows X) 1000 ;;
  S <- lift (take_rows X idx) ;;
  ret (np_median (pdist S)).

(** The scale of the normal draw, [np.sqrt(1 / (2 * sigma))]. *)
Definition scale_of (sigma : F) : F := fsqrt (fdiv f1 (fmul f2 sigma)).

Definition Placeholder_fit (self : t) (X : ndarray F) : M G t :=
  ret self.

Definition Placeholder_transform (self : t) (X : ndarray F)
  : result (ndarray F) :=
  Ok X.

Definition Random_fit (self : t) (X : ndarray F) : M G t :=
  sigma <- sigma_of X ;;
  W <- normal f0 (scale_of sigma) (n_features self) (new_dim self) ;;
  let self := set_w self W in
  v <- uniform (fneg fpi) fpi (n_features self) ;;
  ret (set_b self v).

(** [np.cos(X @ self.w.T + self.b)].  Reading [.T] off [None] raises
    [AttributeError]; adding [None] to an array raises [TypeError]. *)
Definition Random_transform (self : t) (X : ndarray F)
  : result (ndarray F) :=
  match w self with
  | None => Raise AttributeError
  | Some W =>
      match matmul X (T W) with
      | Raise e => Raise e
      | Ok XW =>
          match b self with
          | None => Raise TypeError
          | Some v =>
              match add_broadcast XW v with
              | Raise e => Raise e
              | Ok Z => Ok (np_cos Z)
              end
          end
      end
  end.

Definition Orthogonal_fit (self : t) (X : ndarray F) : M G t :=
  sigma <- sigma_of X ;;
  w0 <- normal f0 (scale_of sigma) (n_features self) (new_dim self) ;;
  let Q := fst (qr w0) in
  S <- chisquare (new_dim self) (new_dim self) ;;
  let S := np_diag (np_sqrt S) in
  W <- lift (matmul Q S) ;;
  let self := set_w self W in
  v <- uniform (fneg fpi) fpi (n_features self) ;;
  ret (set_b self v).

(** Method resolution: [fit] is overridden in both subclasses,
    [transform] only in [RandomFeatureCreator]. *)
Definition fit (self : t) (X : ndarray F) : M G t :=
  match class_ self with
  | FeatureCreatorPlaceholder => Placeholder_fit self X
  | RandomFeatureCreator => Random_fit self X
  | OrthogonalRandomFeatureCreator => Orthogonal_fit self X
  end.

Definition transform (self : t) (X : ndarray F) : result (ndarray F) :=
  match class_ self with
  | FeatureCreatorPlaceholder => Placeholder_transform self X
  | RandomFeatureCreator => Random_transform self X
  | OrthogonalRandomFeatureCreator => Random_transform self X
  end.

(** The same object with another [func] attribute, to compare instances
    that differ in nothing else. *)
Definition with_func (f : F -> F) (self : t) : t :=
  mk (class_ self) (n_features self) (new_dim self) (w self) (b self) f.

(** The same object with other [w] and [b] attributes. *)
Definition with_params (w' : option (ndarray F)) (b' : option (list F))
    (self : t) : t :=
  mk (class_ self) (n_features self) (new_dim self) w' b' (func self).

(** The statement [np.random.seed(0)] executed when the module is
    imported. *)
Definition module_init : M G unit := put (np_random_seed 0).

End FeatureCreator.

Arguments t F : clear implicits.

End FeatureCreator.

(* ===================================================================== *)
(** ** The pipeline *)
(* ===================================================================== *)

Module RFFPipeline.
Section RFFPipeline.

Context {F G P C Y Kw : Type}.
Context `{Scalar F} `{RandomState F G} `{QR F}.
Context `{Reducer F P} `{Classifier F C Y Kw}.

(** The attributes of an [RFFPipeline] object.  [pipeline] is [None]
    until the first successful [fit]; afterwards it is the fitted
    scikit-learn [Pipeline], whose ["rff"] and ["classifier"] steps are
    the very objects held in [feature_creator] and [classifier] (the
    step list stores references), so only the optional ["pca"] step is
    stored with it. *)
Record t : Type := mk {
  n_features : nat;
  new_dim : nat;
  use_PCA : bool;
  classifier : C;
  feature_creator : FeatureCreator.t F;
  pipeline : option (option P)
}.

(** [RFFPipeline.__init__]; [classifier_params=None] stands for
    [{'max_iter': 5000}]. *)
Definition init (n_features new_dim : nat) (use_PCA : bool)
    (feature_creator_class : creator_class)
    (classifier_params : option Kw) (func : F -> F) : t :=
  let classifier_params :=
    match classifier_params with
    | None => kw_max_iter 5000
    | Some kw => kw
    end in
  mk n_features new_dim use_PCA
     (clf_init classifier_params)
     (FeatureCreator.init feature_creator_class n_features new_dim func)
     None.

(** The interpreter state a method of the pipeline runs in: the global
    generator of [np.random] and the object itself. *)
Record world : Type := mkWorld {
  rng : G;
  self : t
}.

Definition set_new_dim (d : nat) : M world unit :=
  fun st =>
    let s := self st in
    (Ok tt,
     mkWorld (rng st)
       (mk (n_features s) d (use_PCA s) (classifier s) (feature_creator s)
           (pipeline s))).

Definition set_pipeline (p : option P) : M world unit :=
  fun st =>
    let s := self st in
    (Ok tt,
     mkWorld (rng st)
       (mk (n_features s) (new_dim s) (use_PCA s) (classifier s)
           (feature_creator s) (Some p))).

(** [self.feature_creator.fit(X, y)]: it reads and advances the global
    generator and, when it returns, has updated the creator in place. *)
Definition feature_creator_fit (X : ndarray F) : M world unit :=
  fun st =>
    let s := self st in
    match FeatureCreator.fit (feature_creator s) X (rng st) with
    | (Ok fc, g) =>
        (Ok tt,
         mkWorld g
           (mk (n_features s) (new_dim s) (use_PCA s) (classifier s) fc
               (pipeline s)))
    | (Raise e, g) => (Raise e, mkWorld g s)
    end.

Definition feature_creator_transform (X : ndarray F) : M world (ndarray F) :=
  fun st => (FeatureCreator.transform (feature_creator (self st)) X, st).

(** [TransformerMixin.fit_transform], which the creators inherit:
    [self.fit(X, y).transform(X)]. *)
Definition feature_creator_fit_transform (X : ndarray F)
  : M world (ndarray F) :=
  feature_creator_fit X ;;;
  feature_creator_transform X.

Definition on_classifier {A} (m : M C A) : M world A :=
  fun st =>
    let s := self st in
    let (r, c) := m (classifier s) in
    (r,
     mkWorld (rng st)
       (mk (n_features s) (new_dim s) (use_PCA s) c (feature_creator s)
           (pipeline s))).

(** [Pipeline(pipeline_steps).fit(X, y)] of scikit-learn on the steps
    that [fit] assembles: every step but the last runs [fit_transform]
    on the output of the previous one, the last one runs [fit].  The
    result is the fitted ["pca"] step, if there is one. *)
Definition sklearn_Pipeline_fit (with_pca : bool) (n_components : nat)
    (X : ndarray F) (y : Y) : M world (option P) :=
  pX <- (if with_pca
         then r <- lift (pca_fit_transform n_components X) ;;
              ret (Some (fst r), snd r)
         else ret (None, X)) ;;
  Z <- feature_creator_fit_transform (snd pX) ;;
  on_classifier (clf_fit Z y) ;;;
  ret (fst pX).

Definition fit (X : ndarray F) (y : Y) : M world unit :=
  s <- get ;;
  (if use_PCA (self s)
   then set_new_dim (Nat.min (ncols X) (new_dim (self s)))
   else ret tt) ;;;
  s <- get ;;
  p <- sklearn_Pipeline_fit (use_PCA (self s)) (new_dim (self s)) X y ;;
  set_pipeline p.

(** The transforming steps of the fitted scikit-learn pipeline, applied
    in order at prediction time. *)
Definition sklearn_Pipeline_transform (s : t) (p : option P)
    (X : ndarray F) : result (ndarray F) :=
  match (match p with
         | Some pca => pca_transform pca X
         | None => Ok X
         end) with
  | Raise e => Raise e
  | Ok X' => FeatureCreator.transform (feature_creator s) X'
  end.

(** [self.pipeline.predict_proba(X)]; looking the method up on [None]
    raises [AttributeError]. *)
Definition predict_proba (s : t) (X : ndarray F) : result (ndarray F) :=
  match pipeline s with
  | None => Raise AttributeError
  | Some p =>
      match sklearn_Pipeline_transform s p X with
      | Raise e => Raise e
      | Ok Z => clf_predict_proba (classifier s) Z
      end
  end.

Definition predict (s : t) (X : ndarray F) : result Y :=
  match pipeline s with
  | None => Raise AttributeError
  | Some p =>
      match sklearn_Pipeline_transform s p X with
      | Raise e => Raise e
      | Ok Z => clf_predict (classifier s) Z
      end
  end.

End RFFPipeline.

Arguments t F P C : clear implicits.
Arguments world F G P C : clear implicits.

End RFFPipeline.

(* ===================================================================== *)
(** ** Concrete instances *)
(* ===================================================================== *)

(** Real arithmetic as the scalar type: the idealisation of [float64] in
    which the specification's formulas are written.  The reals have no
    [nan]; the slot is filled with [0] and is only read by the median of
    an empty vector. *)
#[export] Instance Scalar_R : Scalar R := {|
  f0 := 0%R;
  f1 := 1%R;
  f2 := 2%R;
  fpi := PI;
  fnan := 0%R;
  fadd := Rplus;
  fsub := Rminus;
  fmul := Rmult;
  fdiv := Rdiv;
  fneg := Ropp;
  fsqrt := sqrt;
  fcos := cos;
  fleb := fun x y => if Rle_dec x y then true else false
|}.

(** A generator whose state is a draw counter.  It meets the shape and
    failure rules of [RandomStateSpec], and what it returns depends on the
    counter, as the output of a real generator depends on its state. *)
Module CounterRandom.
Section CounterRandom.

Context {F : Type} `{Scalar F}.

Definition choice (a k : nat) : M nat (list nat) :=
  fun g => if a <? k then (Raise ValueError, g) else (Ok (seq 0 k), S g).

Definition normal (loc scale : F) (r c : nat) : M nat (ndarray F) :=
  fun g =>
    let x := if Nat.even g then loc else fadd loc scale in
    (Ok (mkArr c (repeat (repeat x c) r)), S g).

Definition uniform (lo hi : F) (n : nat) : M nat (list F) :=
  fun g =>
    let x := if Nat.even g then lo else fdiv (fadd lo hi) f2 in
    (Ok (repeat x n), S g).

Definition chisquare (df n : nat) : M nat (list F) :=
  fun g =>
    if df =? 0 then (Raise ValueError, g) else (Ok (repeat f1 n), S g).

End CounterRandom.
End CounterRandom.

Definition RandomState_counter {F : Type} `{Scalar F}
  : RandomState F nat := {|
  np_random_seed := fun n => n;
  choice := CounterRandom.choice;
  normal := CounterRandom.normal;
  uniform := CounterRandom.uniform;
  chisquare := CounterRandom.chisquare
|}.

(** A factorisation routine that is right about shapes only: its first
    factor keeps the leading [min(m, n)] columns of the input. *)
Definition leading_columns {F : Type} (A : ndarray F) : ndarray F :=
  let k := Nat.min (nrows A) (ncols A) in
  mkArr k (map (firstn k) (rows A)).

Definition QR_leading {F : Type} : QR F := {|
  qr := fun A => (leading_columns A, A)
|}.

(** A reducer that projects on the leading coordinates; like [PCA] it
    refuses more components than [min(n_samples, n_features)].  Its fitted
    state is the number of components. *)
Definition Reducer_leading {F : Type} : Reducer F nat := {|
  pca_fit_transform := fun k X =>
    if k <=? Nat.min (nrows X) (ncols X)
    then Ok (k, mkArr k (map (firstn k) (rows X)))
    else Raise ValueError;
  pca_transform := fun k X =>
    if k <=? ncols X
    then Ok (mkArr k (map (firstn k) (rows X)))
    else Raise ValueError
|}.

(** A classifier that remembers the width of its training matrix and
    predicts class [0] for every row of a matrix of that width. *)
Definition Classifier_width {F : Type} `{Scalar F}
  : Classifier F (option nat) (list nat) nat := {|
  kw_max_iter := fun n => n;
  clf_init := fun _ => None;
  clf_fit := fun Z _ => put (Some (ncols Z));
  clf_predict := fun c Z =>
    match c with
    | Some d => if ncols Z =? d then Ok (repeat 0 (nrows Z)) else Raise ValueError
    | None => Raise ValueError
    end;
  clf_predict_proba := fun c Z =>
    match c with
    | Some d =>
        if ncols Z =? d
        then Ok (mkArr 2 (repeat [f1; f0] (nrows Z)))
        else Raise ValueError
    | None => Raise ValueError
    end
|}.

(** Data for the examples: [n] copies of one row. *)
Definition constant_rows {F : Type} (r : list F) (n : nat) : ndarray F :=
  mkArr (length r) (repeat r n).

Module Examples.

(** A thousand rows of one column, all zero, and five hundred of them. *)
Definition X1000 : ndarray R := constant_rows [0%R] 1000.
Definition X500 : ndarray R := constant_rows [0%R] 500.

(** A thousand distinct rows of one column: 0, 1, ..., 999. *)
Definition Xramp : ndarray R := mkArr 1 (map (fun i => [INR i]) (seq 0 1000)).

(** Two rows of one column, and two rows of three columns. *)
Definition X2x1 : ndarray R := mkArr 1 [[1%R]; [2%R]].
Definition X2x3 : ndarray R := mkArr 3 [[1%R; 2%R; 3%R]; [4%R; 5%R; 6%R]].

(** [RandomFeatureCreator(n_features=2, new_dim=1)],
    [OrthogonalRandomFeatureCreator(n_features=1, new_dim=2)],
    [OrthogonalRandomFeatureCreator(n_features=2, new_dim=1)] and the
    placeholder. *)
Definition rfc : FeatureCreator.t R :=
  FeatureCreator.init RandomFeatureCreator 2 1 cos.
Definition orfc : FeatureCreator.t R :=
  FeatureCreator.init OrthogonalRandomFeatureCreator 1 2 cos.
Definition orfc21 : FeatureCreator.t R :=
  FeatureCreator.init OrthogonalRandomFeatureCreator 2 1 cos.
Definition placeholder : FeatureCreator.t R :=
  FeatureCreator.init FeatureCreatorPlaceholder 2 1 cos.

(** Training sets of two and of three columns, with their labels. *)
Definition X2x2 : ndarray R := constant_rows [0%R; 0%R] 2.
Definition X3x3 : ndarray R := constant_rows [0%R; 0%R; 0%R] 3.
Definition y2 : list nat := [0; 1].
Definition y3 : list nat := [0; 1; 0].

(** [RFFPipeline(n_features=4, new_dim=3)] with the default placeholder
    creator, over the example collaborators. *)
Definition pipe : RFFPipeline.t R nat (option nat) :=
  @RFFPipeline.init R nat (option nat) (list nat) nat
    (@Classifier_width R Scalar_R) 4 3 true FeatureCreatorPlaceholder None cos.

(** [fit] and the predictions over the example collaborators. *)
Definition pipe_fit (X : ndarray R) (y : list nat)
  : M (RFFPipeline.world R nat nat (option nat)) unit :=
  @RFFPipeline.fit R nat nat (option nat) (list nat) nat
    Scalar_R (@RandomState_counter R Scalar_R) (@QR_leading R)
    (@Reducer_leading R) (@Classifier_width R Scalar_R) X y.

Definition pipe_predict (s : RFFPipeline.t R nat (option nat)) (X : ndarray R)
  : result (list nat) :=
  @RFFPipeline.predict R nat (option nat) (list nat) nat
    Scalar_R (@Reducer_leading R) (@Classifier_width R Scalar_R) s X.

(** A pipeline fitted on [X2x2] and then on [X3x3], and a fresh one fitted
    on [X3x3] alone, both starting from generator state [0]. *)
Definition refitted : RFFPipeline.world R nat nat (option nat) :=
  snd (pipe_fit X3x3 y3 (snd (pipe_fit X2x2 y2 (RFFPipeline.mkWorld 0 pipe)))).

Definition fitted_once : RFFPipeline.world R nat nat (option nat) :=
  snd (pipe_fit X3x3 y3 (RFFPipeline.mkWorld 0 pipe)).

End Examples.

Module MoreExamples.


(** [RFFPipeline(n_features=4, new_dim=3, use_PCA=False)] with the
    placeholder, and
    [RFFPipeline(n_features=2, new_dim=1, use_PCA=False,
                 feature_creator_class=RandomFeatureCreator)]. *)
Definition pipe_plain : RFFPipeline.t R nat (option nat) :=
  @RFFPipeline.init R nat (option nat) (list nat) nat
    (@Classifier_width R Scalar_R) 4 3 false FeatureCreatorPlaceholder
    None cos.

Definition pipe_rfc : RFFPipeline.t R nat (option nat) :=
  @RFFPipeline.init R nat (option nat) (list nat) nat
    (@Classifier_width R Scalar_R) 2 1 false RandomFeatureCreator None cos.

End MoreExamples.


(* ===================================================================== *)
(** ** Facts about the monad *)
(* ===================================================================== *)


Section MonadFacts.

Context {S A B : Type}.

Lemma bind_ok_inv (c : M S A) (k : A -> M S B) s b s' :
  bind c k s = (Ok b, s') ->
  exists a s1, c s = (Ok a, s1) /\ k a s1 = (Ok b, s').
Proof.
  unfold bind. destruct (c s) as [[a | e] s1]; intros E.
  - exists a, s1. split; [reflexivity | exact E].
  - discriminate E.
Qed.

Lemma bind_ok (c : M S A) (k : A -> M S B) s a s1 :
  c s = (Ok a, s1) -> bind c k s = k a s1.
Proof. unfold bind. intros ->. reflexivity. Qed.

Lemma bind_raise (c : M S A) (k : A -> M S B) s e s1 :
  c s = (Raise e, s1) -> bind c k s = (Raise e, s1).
Proof. unfold bind. intros ->. reflexivity. Qed.

End MonadFacts.

(* ===================================================================== *)
(** ** Facts about arrays *)
(* ===================================================================== *)

Section NumpyFacts.

Context {F : Type} `{Scalar F}.

Lemma wf_row_length (A : ndarray F) r :
  wf A = true -> In r (rows A) -> length r = ncols A.
Proof.
  unfold wf. intros W I.
  rewrite forallb_forall in W. apply Nat.eqb_eq. exact (W r I).
Qed.

Lemma wf_intro (A : ndarray F) :
  (forall r, In r (rows A) -> length r = ncols A) -> wf A = true.
Proof.
  intros W. unfold wf. apply forallb_forall. intros r I.
  apply Nat.eqb_eq. exact (W r I).
Qed.

Lemma nth_seq_map {X : Type} (l : list X) (d : X) :
  map (fun k => nth k l d) (seq 0 (length l)) = l.
Proof.
  induction l as [| x l IH]; [reflexivity |].
  cbn [length seq map nth]. f_equal.
  rewrite <- seq_shift, map_map. exact IH.
Qed.

Lemma nth_map_default {X Y : Type} (f : X -> Y) l d d' n :
  f d = d' -> nth n (map f l) d' = f (nth n l d).
Proof. intros <-. apply map_nth. Qed.

Lemma nrows_T (A : ndarray F) : nrows (T A) = ncols A.
Proof. unfold nrows, T. cbn. now rewrite length_map, length_seq. Qed.

Lemma ncols_T (A : ndarray F) : ncols (T A) = nrows A.
Proof. reflexivity. Qed.

(** Transposing twice gives the rows back. *)
Lemma rows_T_T (A : ndarray F) : wf A = true -> rows (T (T A)) = rows A.
Proof.
  intros W. unfold T at 1. cbn [rows ncols].
  rewrite ncols_T. unfold nrows.
  rewrite <- (nth_seq_map (rows A) []) at 2.
  apply map_ext_in. intros j Hj. apply in_seq in Hj.
  unfold T. cbn [rows]. rewrite map_map.
  assert (L : length (nth j (rows A) []) = ncols A).
  { apply wf_row_length; [exact W |]. apply nth_In. lia. }
  rewrite <- L.
  rewrite <- (nth_seq_map (nth j (rows A) []) f0) at 2.
  apply map_ext. intros k.
  apply (nth_map_default (fun r => nth k r f0)).
  destruct k; reflexivity.
Qed.

Lemma T_involutive (A : ndarray F) : wf A = true -> T (T A) = A.
Proof.
  intros W. pose proof (rows_T_T A W) as R.
  transitivity (mkArr (ncols (T (T A))) (rows (T (T A)))).
  - now destruct (T (T A)).
  - rewrite R, ncols_T, nrows_T. now destruct A.
Qed.

(** The product with a transpose: defined when the widths agree, and then
    entry [(i, j)] is the inner product of row [i] with row [j]. *)
Lemma matmul_T (X W : ndarray F) :
  wf W = true ->
  ncols X = ncols W ->
  matmul X (T W) =
  Ok (mkArr (nrows W) (map (fun rx => map (fun rw => dot rx rw) (rows W))
                           (rows X))).
Proof.
  intros WF E. unfold matmul.
  rewrite nrows_T, E, Nat.eqb_refl, ncols_T, (rows_T_T W WF). reflexivity.
Qed.

Lemma matmul_T_mismatch (X W : ndarray F) :
  ncols X <> ncols W -> matmul X (T W) = Raise ValueError.
Proof.
  intros NE. unfold matmul. rewrite nrows_T.
  apply Nat.eqb_neq in NE. now rewrite NE.
Qed.

Lemma matmul_shape (A B C : ndarray F) :
  matmul A B = Ok C ->
  ncols A = nrows B /\ nrows C = nrows A /\ ncols C = ncols B /\ wf C = true.
Proof.
  unfold matmul. destruct (Nat.eqb_spec (ncols A) (nrows B)) as [E | NE];
    [| discriminate].
  intros [= <-]. unfold nrows. cbn [rows ncols].
  rewrite length_map. repeat split; try assumption.
  apply wf_intro. cbn [rows ncols]. intros r I.
  apply in_map_iff in I. destruct I as [ra [<- _]].
  rewrite length_map. unfold T. cbn [rows].
  now rewrite length_map, length_seq.
Qed.

Lemma matmul_mismatch (A B : ndarray F) :
  ncols A <> nrows B -> matmul A B = Raise ValueError.
Proof.
  intros NE. unfold matmul. apply Nat.eqb_neq in NE. now rewrite NE.
Qed.

Lemma add_broadcast_same (A : ndarray F) v :
  length v = ncols A ->
  add_broadcast A v =
  Ok (mkArr (ncols A)
            (map (fun r => map (fun p => fadd (fst p) (snd p)) (combine r v))
                 (rows A))).
Proof. intros E. unfold add_broadcast. now rewrite E, Nat.eqb_refl. Qed.

Lemma np_diag_shape (v : list F) :
  nrows (np_diag v) = length v /\ ncols (np_diag v) = length v.
Proof.
  unfold nrows, np_diag. cbn. now rewrite length_map, length_seq.
Qed.

End NumpyFacts.

Section IndexingFacts.

Context {F : Type} `{Scalar F}.

Lemma nth_map_lt {X Y : Type} (f : X -> Y) l d d' n :
  n < length l -> nth n (map f l) d' = f (nth n l d).
Proof.
  intros L. rewrite (nth_indep (map f l) d' (f d)).
  - apply map_nth.
  - now rewrite length_map.
Qed.

Lemma take_rows_list_in_range (rs : list (list F)) idx :
  Forall (fun i => i < length rs) idx ->
  take_rows_list rs idx = Ok (map (fun i => nth i rs []) idx).
Proof.
  induction 1 as [| i idx Hi _ IH]; [reflexivity |].
  cbn [take_rows_list map].
  destruct (nth_error rs i) as [r |] eqn:E.
  - rewrite IH. now rewrite (nth_error_nth _ _ [] E).
  - apply nth_error_None in E. lia.
Qed.

Lemma take_rows_in_range (X : ndarray F) idx :
  Forall (fun i => i < nrows X) idx ->
  take_rows X idx = Ok (mkArr (ncols X) (map (fun i => row X i) idx)).
Proof.
  intros R. unfold take_rows. now rewrite (take_rows_list_in_range _ _ R).
Qed.

(** The entries of [np.cos(X @ W.T + v)], once the shapes agree. *)
Lemma cos_affine_entry (X W : ndarray F) (v : list F) i j :
  length v = nrows W ->
  i < nrows X -> j < nrows W ->
  entry
    (np_cos
       (mkArr (nrows W)
          (map (fun r => map (fun p => fadd (fst p) (snd p)) (combine r v))
               (map (fun rx => map (fun rw => dot rx rw) (rows W)) (rows X)))))
    i j
  = fcos (fadd (dot (row X i) (row W j)) (nth j v f0)).
Proof.
  intros Lv Hi Hj. unfold entry, row, np_cos. cbn [rows ncols].
  rewrite !map_map.
  rewrite (nth_map_lt _ (rows X) [] [] i Hi).
  rewrite map_map.
  assert (Lc : length (map (fun rw => dot (nth i (rows X) []) rw) (rows W))
               = length v)
    by (rewrite length_map; symmetry; exact Lv).
  rewrite (nth_map_lt _ _ (f0, f0)).
  - rewrite (combine_nth _ _ j f0 f0 Lc). cbn [fst snd].
    rewrite (nth_map_lt _ (rows W) [] f0 j Hj). reflexivity.
  - rewrite length_combine, Lc, Nat.min_id, Lv. exact Hj.
Qed.

Lemma cos_affine_shape (X W : ndarray F) (v : list F) :
  length v = nrows W ->
  let Z :=
    np_cos
      (mkArr (nrows W)
         (map (fun r => map (fun p => fadd (fst p) (snd p)) (combine r v))
              (map (fun rx => map (fun rw => dot rx rw) (rows W)) (rows X)))) in
  shape Z = (nrows X, nrows W) /\ wf Z = true.
Proof.
  intros Lv Z. split.
  - unfold Z, shape, nrows, np_cos. cbn [rows ncols].
    now rewrite !length_map.
  - apply wf_intro. unfold Z, np_cos. cbn [rows ncols]. intros r I.
    rewrite !map_map in I. apply in_map_iff in I. destruct I as [rx [<- _]].
    rewrite !length_map, length_combine, length_map, Lv.
    apply Nat.min_id.
Qed.

End IndexingFacts.

(* ===================================================================== *)
(** ** Facts about the feature creators *)
(* ===================================================================== *)

Section FeatureCreatorFacts.

Import FeatureCreator.

Context {F G : Type} `{Scalar F} `{RandomState F G} `{QR F}.
Context {RS : RandomStateSpec F G} {QS : QRSpec F}.

Ltac bind_inv E :=
  let a := fresh "a" in
  let s := fresh "g" in
  let E1 := fresh "E" in
  apply bind_ok_inv in E; destruct E as (a & s & E1 & E).

(** With fewer than 1000 rows the bandwidth expression stops in the
    sampling call, before the generator has moved. *)
Lemma sigma_of_small (X : ndarray F) g :
  nrows X < 1000 -> sigma_of X g = (Raise ValueError, g).
Proof.
  intros L. unfold sigma_of.
  apply bind_raise. now apply choice_too_large.
Qed.

(** With at least 1000 rows it returns the median of the pairwise
    distances of the sampled rows. *)
Lemma sigma_of_large (X : ndarray F) g :
  1000 <= nrows X ->
  exists idx g',
    choice (nrows X) 1000 g = (Ok idx, g') /\
    length idx = 1000 /\ NoDup idx /\ Forall (fun i => i < nrows X) idx /\
    sigma_of X g =
    (Ok (np_median (pdist (mkArr (ncols X) (map (fun i => row X i) idx)))), g').
Proof.
  intros L. destruct (choice_sample (nrows X) 1000 g L)
    as (idx & g' & E & Li & ND & R).
  exists idx, g'. repeat split; try assumption.
  unfold sigma_of. rewrite (bind_ok _ _ _ _ _ E).
  unfold lift, bind, ret. now rewrite (take_rows_in_range X idx R).
Qed.

Lemma Random_fit_inv (self self' : t F) X g g' :
  Random_fit self X g = (Ok self', g') ->
  exists sigma g1 W g2 v,
    sigma_of X g = (Ok sigma, g1) /\
    normal f0 (scale_of sigma) (n_features self) (new_dim self) g1
      = (Ok W, g2) /\
    uniform (fneg fpi) fpi (n_features self) g2 = (Ok v, g') /\
    self' = set_b (set_w self W) v.
Proof.
  unfold Random_fit. intros E.
  bind_inv E. bind_inv E. bind_inv E.
  unfold ret in E. injection E as <- <-.
  eexists _, _, _, _, _. repeat split; eassumption.
Qed.

Lemma Orthogonal_fit_inv (self self' : t F) X g g' :
  Orthogonal_fit self X g = (Ok self', g') ->
  exists sigma g1 w0 g2 S g3 W v,
    sigma_of X g = (Ok sigma, g1) /\
    normal f0 (scale_of sigma) (n_features self) (new_dim self) g1
      = (Ok w0, g2) /\
    chisquare (new_dim self) (new_dim self) g2 = (Ok S, g3) /\
    matmul (fst (qr w0)) (np_diag (np_sqrt S)) = Ok W /\
    uniform (fneg fpi) fpi (n_features self) g3 = (Ok v, g') /\
    self' = set_b (set_w self W) v.
Proof.
  unfold Orthogonal_fit. intros E.
  bind_inv E. bind_inv E. bind_inv E. bind_inv E. bind_inv E.
  unfold ret in E. injection E as <- <-.
  unfold lift in E3. injection E3 as E3 <-.
  eexists _, _, _, _, _, _, _, _. repeat split; eassumption.
Qed.

(** What a successful [fit] of a Fourier creator leaves in the object: a
    rectangular [n_features x new_dim] matrix and [n_features] phases; the
    other attributes are untouched. *)
Lemma fit_fitted (self self' : t F) X g g' :
  class_ self <> FeatureCreatorPlaceholder ->
  fit self X g = (Ok self', g') ->
  exists W v,
    self' = set_b (set_w self W) v /\
    nrows W = n_features self /\ ncols W = new_dim self /\
    wf W = true /\ length v = n_features self.
Proof.
  intros NP E. unfold fit in E.
  destruct (class_ self) eqn:Cl; [congruence | |].
  - apply Random_fit_inv in E.
    destruct E as (sigma & g1 & W & g2 & v & _ & EW & Ev & ->).
    destruct (normal_shape f0 (scale_of sigma) (n_features self)
                (new_dim self) g1) as (W' & g2' & EW' & R & Cc & WF).
    rewrite EW in EW'. injection EW' as <- <-.
    destruct (uniform_shape (fneg fpi) fpi (n_features self) g2)
      as (v' & g'' & Ev' & Lv).
    rewrite Ev in Ev'. injection Ev' as <- <-.
    exists W, v. repeat split; assumption.
  - apply Orthogonal_fit_inv in E.
    destruct E as (sigma & g1 & w0 & g2 & S & g3 & W & v
                   & _ & Ew & ES & EM & Ev & ->).
    destruct (normal_shape f0 (scale_of sigma) (n_features self)
                (new_dim self) g1) as (W' & g2' & EW' & R & Cc & WF).
    rewrite Ew in EW'. injection EW' as <- <-.
    destruct (uniform_shape (fneg fpi) fpi (n_features self) g3)
      as (v' & g'' & Ev' & Lv).
    rewrite Ev in Ev'. injection Ev' as <- <-.
    destruct (qr_shape w0 WF) as (QR_rows & _ & _).
    apply matmul_shape in EM. destruct EM as (_ & MR & MC & MW).
    destruct (Nat.eq_dec (new_dim self) 0) as [Z | NZ].
    + rewrite Z in ES. rewrite chisquare_df0 in ES. discriminate ES.
    + destruct (chisquare_shape (new_dim self) (new_dim self) g2
                  ltac:(lia)) as (S' & g3' & ES' & LS).
      rewrite ES in ES'. injection ES' as <- <-.
      exists W, v. repeat split; try assumption.
      * now rewrite MR, QR_rows.
      * rewrite MC. destruct (np_diag_shape (np_sqrt S)) as [_ ->].
        unfold np_sqrt. now rewrite length_map.
Qed.

(** [transform] on such an object. *)
Lemma Random_transform_fitted (self : t F) (W : ndarray F) v X :
  w self = Some W -> b self = Some v ->
  wf W = true -> length v = nrows W ->
  ncols X = ncols W ->
  Random_transform self X =
  Ok (np_cos
        (mkArr (nrows W)
           (map (fun r => map (fun p => fadd (fst p) (snd p)) (combine r v))
                (map (fun rx => map (fun rw => dot rx rw) (rows W))
                     (rows X))))).
Proof.
  intros Ew Eb WF Lv EC. unfold Random_transform.
  rewrite Ew, (matmul_T X W WF EC), Eb.
  now rewrite add_broadcast_same by exact Lv.
Qed.

Lemma Random_transform_mismatch (self : t F) (W : ndarray F) X :
  w self = Some W -> ncols X <> ncols W ->
  Random_transform self X = Raise ValueError.
Proof.
  intros Ew NE. unfold Random_transform.
  now rewrite Ew, (matmul_T_mismatch X W NE).
Qed.

Lemma transform_Fourier (self : t F) X :
  class_ self <> FeatureCreatorPlaceholder ->
  transform self X = Random_transform self X.
Proof.
  intros NP. unfold transform. destruct (class_ self); congruence.
Qed.

End FeatureCreatorFacts.

Section FitFacts.

Import FeatureCreator.

Context {F G : Type} `{Scalar F} `{RandomState F G} `{QR F}.
Context {RS : RandomStateSpec F G} {QS : QRSpec F}.

(** [fit] of a [RandomFeatureCreator] returns whenever there are at least
    1000 rows. *)
Lemma Random_fit_succeeds (self : t F) X g :
  class_ self = RandomFeatureCreator ->
  1000 <= nrows X ->
  exists self' g', fit self X g = (Ok self', g').
Proof.
  intros Cl L. unfold fit. rewrite Cl. unfold Random_fit.
  destruct (sigma_of_large X g L) as (idx & g1 & _ & _ & _ & _ & Es).
  rewrite (bind_ok _ _ _ _ _ Es).
  destruct (normal_shape f0
              (scale_of (np_median (pdist (mkArr (ncols X)
                                             (map (fun i => row X i) idx)))))
              (n_features self) (new_dim self) g1)
    as (W & g2 & EW & _).
  rewrite (bind_ok _ _ _ _ _ EW).
  destruct (uniform_shape (fneg fpi) fpi (n_features (set_w self W)) g2)
    as (v & g3 & Ev & _).
  rewrite (bind_ok _ _ _ _ _ Ev).
  eexists _, _. reflexivity.
Qed.

(** The product [Q @ S] of the orthogonal variant, by the shape of the
    first factor of the decomposition. *)
Lemma Orthogonal_product (w0 : ndarray F) (S : list F) nf nd :
  wf w0 = true -> nrows w0 = nf -> ncols w0 = nd -> length S = nd ->
  (nd <= nf -> exists W, matmul (fst (qr w0)) (np_diag (np_sqrt S)) = Ok W) /\
  (nf < nd -> matmul (fst (qr w0)) (np_diag (np_sqrt S)) = Raise ValueError).
Proof.
  intros WF R Cc LS.
  destruct (qr_shape w0 WF) as (_ & QC & _).
  destruct (np_diag_shape (np_sqrt S)) as [DR _].
  unfold np_sqrt in DR. rewrite length_map, LS in DR.
  rewrite R, Cc in QC. split; intros L.
  - unfold matmul. unfold np_sqrt at 1. rewrite DR, QC.
    replace (Nat.min nf nd) with nd by lia. rewrite Nat.eqb_refl.
    eexists. reflexivity.
  - apply matmul_mismatch. unfold np_sqrt. rewrite DR, QC. lia.
Qed.

Lemma Orthogonal_fit_succeeds (self : t F) X g :
  class_ self = OrthogonalRandomFeatureCreator ->
  1000 <= nrows X ->
  0 < new_dim self -> new_dim self <= n_features self ->
  exists self' g', fit self X g = (Ok self', g').
Proof.
  intros Cl L Pos Le. unfold fit. rewrite Cl. unfold Orthogonal_fit.
  destruct (sigma_of_large X g L) as (idx & g1 & _ & _ & _ & _ & Es).
  rewrite (bind_ok _ _ _ _ _ Es).
  destruct (normal_shape f0
              (scale_of (np_median (pdist (mkArr (ncols X)
                                             (map (fun i => row X i) idx)))))
              (n_features self) (new_dim self) g1)
    as (w0 & g2 & EW & R & Cc & WF).
  rewrite (bind_ok _ _ _ _ _ EW).
  destruct (chisquare_shape (new_dim self) (new_dim self) g2 Pos)
    as (S & g3 & ES & LS).
  rewrite (bind_ok _ _ _ _ _ ES).
  destruct (Orthogonal_product w0 S _ _ WF R Cc LS) as [[W EM] _];
    [exact Le |].
  unfold lift at 1. unfold bind at 1. rewrite EM.
  destruct (uniform_shape (fneg fpi) fpi (n_features (set_w self W)) g3)
    as (v & g4 & Ev & _).
  rewrite (bind_ok _ _ _ _ _ Ev).
  eexists _, _. reflexivity.
Qed.

(** With more columns than rows to orthogonalise, [fit] of the orthogonal
    variant raises [ValueError]: in the sampling call when there are fewer
    than 1000 rows, in the product [Q @ S] otherwise. *)
Lemma Orthogonal_fit_rank (self : t F) X g :
  class_ self = OrthogonalRandomFeatureCreator ->
  n_features self < new_dim self ->
  fst (fit self X g) = Raise ValueError.
Proof.
  intros Cl Lt. unfold fit. rewrite Cl. unfold Orthogonal_fit.
  destruct (Nat.lt_ge_cases (nrows X) 1000) as [Small | L].
  - now rewrite (bind_raise _ _ _ _ _ (sigma_of_small X g Small)).
  - destruct (sigma_of_large X g L) as (idx & g1 & _ & _ & _ & _ & Es).
    rewrite (bind_ok _ _ _ _ _ Es).
    destruct (normal_shape f0
                (scale_of (np_median (pdist (mkArr (ncols X)
                                               (map (fun i => row X i) idx)))))
                (n_features self) (new_dim self) g1)
      as (w0 & g2 & EW & R & Cc & WF).
    rewrite (bind_ok _ _ _ _ _ EW).
    destruct (chisquare_shape (new_dim self) (new_dim self) g2
                ltac:(lia)) as (S & g3 & ES & LS).
    rewrite (bind_ok _ _ _ _ _ ES).
    destruct (Orthogonal_product w0 S _ _ WF R Cc LS) as [_ EM].
    unfold lift at 1. unfold bind at 1. now rewrite (EM Lt).
Qed.

Lemma fit_small (self : t F) X g :
  class_ self <> FeatureCreatorPlaceholder ->
  nrows X < 1000 ->
  fit self X g = (Raise ValueError, g).
Proof.
  intros NP Small. unfold fit.
  destruct (class_ self); [congruence | |].
  - unfold Random_fit.
    now rewrite (bind_raise _ _ _ _ _ (sigma_of_small X g Small)).
  - unfold Orthogonal_fit.
    now rewrite (bind_raise _ _ _ _ _ (sigma_of_small X g Small)).
Qed.

End FitFacts.

(* ===================================================================== *)
(** ** Facts about the median of the pairwise distances *)
(* ===================================================================== *)

Section MedianFacts.

Context {F : Type} `{Scalar F}.

Lemma insert_perm (x : F) l : Permutation (insert x l) (x :: l).
Proof.
  induction l as [| y l IH]; cbn [insert]; [apply Permutation_refl |].
  destruct (fleb x y); [apply Permutation_refl |].
  eapply perm_trans; [apply perm_skip, IH | apply perm_swap].
Qed.

Lemma sort_perm (l : list F) : Permutation (sort l) l.
Proof.
  induction l as [| x l IH]; cbn [sort]; [apply perm_nil |].
  eapply perm_trans; [apply insert_perm | apply perm_skip, IH].
Qed.

Lemma sort_length (l : list F) : length (sort l) = length l.
Proof. apply Permutation_length, sort_perm. Qed.

Lemma sort_Forall (Q : F -> Prop) l : Forall Q l -> Forall Q (sort l).
Proof.
  intros A. eapply Permutation_Forall; [| exact A].
  apply Permutation_sym, sort_perm.
Qed.

(** The median of a non-empty vector is one of its elements, or the
    half-sum of two of them. *)
Lemma np_median_cases (l : list F) :
  l <> [] ->
  (exists x, In x l /\ np_median l = x) \/
  (exists x y, In x l /\ In y l /\ np_median l = fdiv (fadd x y) f2).
Proof.
  intros NE. unfold np_median.
  assert (P : 0 < length l) by (destruct l; [congruence | cbn; lia]).
  destruct (Nat.eqb_spec (length l) 0) as [Z | _]; [lia |].
  assert (D : length l / 2 < length l) by (apply Nat.div_lt; lia).
  assert (I : forall k, k < length l -> In (nth k (sort l) f0) l).
  { intros k Hk. apply (Permutation_in _ (sort_perm l)).
    apply nth_In. now rewrite sort_length. }
  destruct (Nat.even (length l)).
  - right.
    exists (nth (length l / 2 - 1) (sort l) f0), (nth (length l / 2) (sort l) f0).
    split; [apply I; lia | split; [apply I; lia | reflexivity]].
  - left. exists (nth (length l / 2) (sort l) f0).
    split; [apply I; lia | reflexivity].
Qed.

Lemma pdist_rows_nonempty (rs : list (list F)) :
  2 <= length rs -> pdist_rows rs <> [].
Proof.
  destruct rs as [| r [| r' rs]]; cbn [length]; try lia.
  intros _. cbn. discriminate.
Qed.

(** Every entry of the condensed distance vector is the distance of two
    of the rows. *)
Lemma pdist_rows_In (rs : list (list F)) d :
  In d (pdist_rows rs) ->
  exists u v, In u rs /\ In v rs /\ d = sqeuclidean u v.
Proof.
  induction rs as [| r rs IH]; cbn [pdist_rows]; [intros [] |].
  intros I. apply in_app_or in I. destruct I as [I | I].
  - apply in_map_iff in I. destruct I as (v & <- & Iv).
    exists r, v. split; [now left | split; [now right | reflexivity]].
  - destruct (IH I) as (u & v & Iu & Iv & ->).
    exists u, v. split; [now right | split; [now right | reflexivity]].
Qed.

Section Order.

(** An order on the scalars under which squares are non-negative, as for
    the reals. *)
Variable nonneg : F -> Prop.
Hypothesis nonneg_0 : nonneg f0.
Hypothesis nonneg_square : forall x, nonneg (fmul x x).
Hypothesis nonneg_add : forall x y, nonneg x -> nonneg y -> nonneg (fadd x y).
Hypothesis nonneg_half :
  forall x y, nonneg x -> nonneg y -> nonneg (fdiv (fadd x y) f2).

Lemma sqeuclidean_nonneg u v : nonneg (sqeuclidean u v).
Proof.
  unfold sqeuclidean.
  induction (combine u v) as [| p l IH]; cbn [map fold_right];
    [exact nonneg_0 |].
  apply nonneg_add; [apply nonneg_square | exact IH].
Qed.

Lemma np_median_pdist_nonneg (A : ndarray F) :
  2 <= nrows A -> nonneg (np_median (pdist A)).
Proof.
  intros L. unfold pdist.
  assert (D : forall d, In d (pdist_rows (rows A)) -> nonneg d).
  { intros d I. destruct (pdist_rows_In _ _ I) as (u & v & _ & _ & ->).
    apply sqeuclidean_nonneg. }
  destruct (np_median_cases _ (pdist_rows_nonempty _ L))
    as [(x & Ix & ->) | (x & y & Ix & Iy & ->)].
  - now apply D.
  - apply nonneg_half; now apply D.
Qed.

End Order.

(** When all the rows coincide, the median is the distance of that row to
    itself, or the half-sum of two copies of it. *)
Lemma np_median_pdist_constant (A : ndarray F) r :
  2 <= nrows A ->
  Forall (eq r) (rows A) ->
  np_median (pdist A) = sqeuclidean r r \/
  np_median (pdist A) = fdiv (fadd (sqeuclidean r r) (sqeuclidean r r)) f2.
Proof.
  intros L Eq. unfold pdist. rewrite Forall_forall in Eq.
  assert (D : forall d, In d (pdist_rows (rows A)) -> d = sqeuclidean r r).
  { intros d I. destruct (pdist_rows_In _ _ I) as (u & v & Iu & Iv & ->).
    now rewrite <- (Eq u Iu), <- (Eq v Iv). }
  destruct (np_median_cases _ (pdist_rows_nonempty _ L))
    as [(x & Ix & ->) | (x & y & Ix & Iy & ->)].
  - left. now apply D.
  - right. now rewrite (D x Ix), (D y Iy).
Qed.

End MedianFacts.

(* ===================================================================== *)
(** ** The feature map: transform, fit and their failures *)
(* ===================================================================== *)

Section FeatureMapTheorems.

Import FeatureCreator.

Context {F G : Type} `{Scalar F} `{RandomState F G} `{QR F}.
Context {RS : RandomStateSpec F G} {QS : QRSpec F}.

(** C1.  After a successful [fit] of a [RandomFeatureCreator] or an
    [OrthogonalRandomFeatureCreator], the object holds a rectangular
    [n_features x new_dim] matrix [W] and [n_features] phases [v]; for
    every input [X] with [new_dim] columns, [transform] returns an array
    [Z] of shape [(n_samples, n_features)] whose entry [(i, j)] is the
    cosine of the inner product of row [i] of [X] with row [j] of [W] plus
    phase [j]: [Z = cos(X W^T + b)] with [b] broadcast across the rows. *)
Theorem transform_fitted_is_cos_affine (self self' : t F) X0 g g' X :
  class_ self <> FeatureCreatorPlaceholder ->
  fit self X0 g = (Ok self', g') ->
  ncols X = new_dim self' ->
  exists W v Z,
    w self' = Some W /\ b self' = Some v /\
    shape W = (n_features self', new_dim self') /\ wf W = true /\
    length v = n_features self' /\
    transform self' X = Ok Z /\
    shape Z = (nrows X, n_features self') /\ wf Z = true /\
    forall i j, i < nrows X -> j < n_features self' ->
      entry Z i j = fcos (fadd (dot (row X i) (row W j)) (nth j v f0)).
Proof.
  intros NP E EC.
  destruct (fit_fitted self self' X0 g g' NP E)
    as (W & v & -> & R & Cc & WF & Lv).
  cbn [set_b set_w w b n_features new_dim] in *.
  assert (Lv' : length v = nrows W) by congruence.
  assert (EC' : ncols X = ncols W) by congruence.
  eexists W, v, _. split; [reflexivity |]. split; [reflexivity |].
  split; [unfold shape; congruence |]. split; [exact WF |].
  split; [exact Lv |].
  split.
  { rewrite transform_Fourier by exact NP.
    now apply (Random_transform_fitted _ W v X). }
  destruct (cos_affine_shape X W v Lv') as [Sh WFZ].
  split; [rewrite Sh; congruence |]. split; [exact WFZ |].
  intros i j Hi Hj. apply cos_affine_entry; congruence || lia.
Qed.

(** C4, as the code has it.  On fewer than 1000 rows, [fit] of either
    Fourier creator raises the [ValueError] of NumPy's sampling without
    replacement, and leaves the generator where it was. *)
Theorem fit_small_raises_ValueError (self : t F) X g :
  class_ self <> FeatureCreatorPlaceholder ->
  nrows X < 1000 ->
  fit self X g = (Raise ValueError, g).
Proof. exact (fit_small self X g). Qed.

(** C6, as the code has it.  On a fitted Fourier creator, [transform] of an
    input whose column count differs from [new_dim] raises the
    [ValueError] of the matrix product. *)
Theorem transform_width_mismatch_raises_ValueError
    (self self' : t F) X0 g g' X :
  class_ self <> FeatureCreatorPlaceholder ->
  fit self X0 g = (Ok self', g') ->
  ncols X <> new_dim self' ->
  transform self' X = Raise ValueError.
Proof.
  intros NP E NE.
  destruct (fit_fitted self self' X0 g g' NP E)
    as (W & v & -> & R & Cc & WF & Lv).
  cbn [set_b set_w new_dim] in NE.
  rewrite transform_Fourier by exact NP.
  apply (Random_transform_mismatch _ W); [reflexivity | congruence].
Qed.

(** C7, as the code has it.  With [n_features < new_dim], [fit] of the
    orthogonal creator fails on every input, with the [ValueError] of the
    product [Q @ S] (or of the sampling call, on fewer than 1000 rows). *)
Theorem Orthogonal_fit_rank_raises_ValueError (self : t F) X g :
  class_ self = OrthogonalRandomFeatureCreator ->
  n_features self < new_dim self ->
  fst (fit self X g) = Raise ValueError.
Proof. exact (Orthogonal_fit_rank self X g). Qed.

(** C9.  On a [FeatureCreatorPlaceholder], whatever its attributes and
    whatever the input, [fit] returns the object itself and changes
    neither the object nor the generator, and [transform] returns its
    input. *)
Theorem Placeholder_is_identity nf nd w0 b0 (fn : F -> F) X (g : G) :
  let self := mk FeatureCreatorPlaceholder nf nd w0 b0 fn in
  fit self X g = (Ok self, g) /\
  transform self X = Ok X.
Proof. cbv zeta. split; reflexivity. Qed.

(** [func] is never read: replacing it commutes with [fit] and leaves
    [transform] unchanged. *)
Lemma fit_with_func (fn : F -> F) (self : t F) X (g : G) :
  fit (with_func fn self) X g =
  (match fst (fit self X g) with
   | Ok s => Ok (with_func fn s)
   | Raise e => Raise e
   end, snd (fit self X g)).
Proof.
  destruct self as [cls nf nd wp bp fn0].
  unfold fit, with_func. cbn [class_ n_features new_dim w b].
  destruct cls.
  - reflexivity.
  - unfold Random_fit, bind, ret. cbn [n_features new_dim set_w].
    destruct (sigma_of X g) as [[sigma | e] g1]; [| reflexivity].
    destruct (normal _ _ _ _ g1) as [[W | e] g2]; [| reflexivity].
    destruct (uniform _ _ _ g2) as [[v | e] g3]; reflexivity.
  - unfold Orthogonal_fit, bind, ret, lift. cbn [n_features new_dim set_w].
    destruct (sigma_of X g) as [[sigma | e] g1]; [| reflexivity].
    destruct (normal _ _ _ _ g1) as [[w0 | e] g2]; [| reflexivity].
    destruct (chisquare _ _ g2) as [[S | e] g3]; [| reflexivity].
    destruct (matmul _ _) as [W | e]; [| reflexivity].
    destruct (uniform _ _ _ g3) as [[v | e] g4]; reflexivity.
Qed.

Lemma transform_with_func (fn : F -> F) (self : t F) X :
  transform (with_func fn self) X = transform self X.
Proof. reflexivity. Qed.

(** The fitted parameters do not depend on what [w] and [b] held
    before. *)
Lemma fit_with_params w' b' (self : t F) X (g : G) :
  class_ self <> FeatureCreatorPlaceholder ->
  fit (with_params w' b' self) X g = fit self X g.
Proof.
  destruct self as [cls nf nd wp bp fn0]. cbn [class_].
  intros NP. unfold fit, with_params. cbn [class_ n_features new_dim func].
  destruct cls; [congruence | |].
  - unfold Random_fit, bind, ret. cbn [n_features new_dim set_w].
    destruct (sigma_of X g) as [[sigma | e] g1]; [| reflexivity].
    destruct (normal _ _ _ _ g1) as [[W | e] g2]; [| reflexivity].
    destruct (uniform _ _ _ g2) as [[v | e] g3]; reflexivity.
  - unfold Orthogonal_fit, bind, ret, lift. cbn [n_features new_dim set_w].
    destruct (sigma_of X g) as [[sigma | e] g1]; [| reflexivity].
    destruct (normal _ _ _ _ g1) as [[w0 | e] g2]; [| reflexivity].
    destruct (chisquare _ _ g2) as [[S | e] g3]; [| reflexivity].
    destruct (matmul _ _) as [W | e]; [| reflexivity].
    destruct (uniform _ _ _ g3) as [[v | e] g4]; reflexivity.
Qed.

End FeatureMapTheorems.

(* ===================================================================== *)
(** ** The bandwidth and the generator *)
(* ===================================================================== *)

Section BandwidthTheorems.

Import FeatureCreator.

Context {F G : Type} `{Scalar F} `{RandomState F G} `{QR F}.
Context {RS : RandomStateSpec F G}.

Variable nonneg : F -> Prop.
Hypothesis nonneg_0 : nonneg f0.
Hypothesis nonneg_square : forall x, nonneg (fmul x x).
Hypothesis nonneg_add : forall x y, nonneg x -> nonneg y -> nonneg (fadd x y).
Hypothesis nonneg_half :
  forall x y, nonneg x -> nonneg y -> nonneg (fdiv (fadd x y) f2).

(** C2, as the code has it.  On at least 1000 rows the bandwidth expression
    returns: the generator hands out 1000 distinct row indices, and sigma
    is the median of the pairwise squared Euclidean distances of those
    rows, a function of the data and of the generator state alone.  Over
    scalars whose squares are non-negative sigma is non-negative; it need
    not be positive. *)
Theorem sigma_is_median_of_sample (X : ndarray F) (g : G) :
  1000 <= nrows X ->
  exists idx g',
    choice (nrows X) 1000 g = (Ok idx, g') /\
    length idx = 1000 /\ NoDup idx /\ Forall (fun i => i < nrows X) idx /\
    take_rows X idx = Ok (mkArr (ncols X) (map (fun i => row X i) idx)) /\
    sigma_of X g =
      (Ok (np_median (pdist (mkArr (ncols X) (map (fun i => row X i) idx)))),
       g') /\
    nonneg (np_median (pdist (mkArr (ncols X) (map (fun i => row X i) idx)))).
Proof.
  intros L.
  destruct (sigma_of_large X g L) as (idx & g' & Ec & Li & ND & R & Es).
  exists idx, g'. repeat split; try assumption.
  - now apply take_rows_in_range.
  - apply np_median_pdist_nonneg; try assumption.
    unfold nrows. cbn [rows]. rewrite length_map, Li. lia.
Qed.

End BandwidthTheorems.

Section GeneratorTheorems.

Import FeatureCreator.

Context {F G : Type} `{Scalar F} `{RandomState F G} `{QR F}.

(** C3, as the code has it.  [fit] takes no seed: what it computes is
    determined by the class, [n_features], [new_dim], the data and the
    state of the process-wide generator when it is called, which importing
    the module sets to seed 0.  Two Fourier creators that agree on these
    get the same [w] and [b] (or the same exception) from the same
    generator state, whatever their attributes held before, and leave the
    generator in the same state. *)
Theorem fit_determined_by_generator_state (self1 self2 : t F) X (g : G) :
  class_ self1 = class_ self2 ->
  class_ self1 <> FeatureCreatorPlaceholder ->
  n_features self1 = n_features self2 ->
  new_dim self1 = new_dim self2 ->
  (forall g0, snd (module_init g0) = np_random_seed 0) /\
  snd (fit self1 X g) = snd (fit self2 X g) /\
  match fst (fit self1 X g), fst (fit self2 X g) with
  | Ok a, Ok c => w a = w c /\ b a = b c
  | Raise e1, Raise e2 => e1 = e2
  | _, _ => False
  end.
Proof.
  intros Ec NP En Ed.
  assert (E2 : self2 =
               with_func (func self2) (with_params (w self2) (b self2) self1)).
  { destruct self1, self2. cbn in *. subst. reflexivity. }
  split; [reflexivity |].
  rewrite E2, fit_with_func, fit_with_params by exact NP.
  cbn [fst snd]. split; [reflexivity |].
  destruct (fst (fit self1 X g)); cbn; auto.
Qed.

End GeneratorTheorems.

(* ===================================================================== *)
(** ** The pipeline *)
(* ===================================================================== *)

Section PipelineTheorems.

Context {F G P C Y Kw : Type}.
Context `{Scalar F} `{RandomState F G} `{QR F}.
Context `{Reducer F P} `{Classifier F C Y Kw}.

(** C5, as the code has it.  The module has no fitted-state check.  On an
    object fresh from [__init__], [transform] of a Fourier creator raises
    the [AttributeError] of reading [.T] off [None], [transform] of the
    placeholder returns its input, and [predict] and [predict_proba] of
    the pipeline raise the [AttributeError] of calling a method on
    [None]. *)
Theorem unfitted_calls (cls : creator_class) (nf nd : nat) (fn : F -> F)
    (pnf pnd : nat) (pca : bool) (pcls : creator_class) (kw : option Kw)
    (pfn : F -> F) (X : ndarray F) :
  FeatureCreator.transform (FeatureCreator.init cls nf nd fn) X =
    match cls with
    | FeatureCreatorPlaceholder => Ok X
    | _ => Raise AttributeError
    end /\
  RFFPipeline.predict
    (RFFPipeline.init (P:=P) pnf pnd pca pcls kw pfn) X
    = Raise AttributeError /\
  RFFPipeline.predict_proba
    (RFFPipeline.init (P:=P) pnf pnd pca pcls kw pfn) X
    = Raise AttributeError.
Proof. destruct cls; repeat split. Qed.

(** C10.  Two creators that differ only in [func] transform alike; fitted
    from the same generator state they end with the same [w] and [b] (or
    the same exception), leave the generator in the same state, and
    transform alike afterwards.  The pipeline forwards its [func] to the
    creator and to nothing else. *)
Theorem func_never_influences_transform
    (fn1 fn2 : F -> F) (cls : creator_class) (nf nd : nat)
    (w0 : option (ndarray F)) (b0 : option (list F))
    (X0 X : ndarray F) (g : G) (pca : bool) (kw : option Kw) :
  let s1 := FeatureCreator.mk cls nf nd w0 b0 fn1 in
  let s2 := FeatureCreator.mk cls nf nd w0 b0 fn2 in
  FeatureCreator.transform s1 X = FeatureCreator.transform s2 X /\
  snd (FeatureCreator.fit s1 X0 g) = snd (FeatureCreator.fit s2 X0 g) /\
  match fst (FeatureCreator.fit s1 X0 g), fst (FeatureCreator.fit s2 X0 g) with
  | Ok a, Ok c =>
      FeatureCreator.w a = FeatureCreator.w c /\
      FeatureCreator.b a = FeatureCreator.b c /\
      FeatureCreator.transform a X = FeatureCreator.transform c X
  | Raise e1, Raise e2 => e1 = e2
  | _, _ => False
  end /\
  RFFPipeline.init (P:=P) nf nd pca cls kw fn2 =
  RFFPipeline.mk nf nd pca
    (RFFPipeline.classifier (RFFPipeline.init (P:=P) nf nd pca cls kw fn1))
    (FeatureCreator.with_func fn2
       (RFFPipeline.feature_creator
          (RFFPipeline.init (P:=P) nf nd pca cls kw fn1)))
    None.
Proof.
  cbv zeta.
  change (FeatureCreator.mk cls nf nd w0 b0 fn2)
    with (FeatureCreator.with_func fn2 (FeatureCreator.mk cls nf nd w0 b0 fn1)).
  rewrite fit_with_func. cbn [fst snd].
  split; [reflexivity |]. split; [reflexivity |].
  split; [| reflexivity].
  destruct (fst (FeatureCreator.fit _ X0 g)) as [a | e]; [| reflexivity].
  repeat split.
Qed.

(** What [fit] does to the configuration of the pipeline, whether or not
    it returns: with reduction enabled, [new_dim] is overwritten by its
    minimum with the column count of the data. *)
Lemma fit_new_dim (X : ndarray F) (y : Y) (st : RFFPipeline.world F G P C) :
  let st' := snd (RFFPipeline.fit X y st) in
  RFFPipeline.use_PCA (RFFPipeline.self st')
    = RFFPipeline.use_PCA (RFFPipeline.self st) /\
  RFFPipeline.n_features (RFFPipeline.self st')
    = RFFPipeline.n_features (RFFPipeline.self st) /\
  RFFPipeline.new_dim (RFFPipeline.self st') =
    if RFFPipeline.use_PCA (RFFPipeline.self st)
    then Nat.min (ncols X) (RFFPipeline.new_dim (RFFPipeline.self st))
    else RFFPipeline.new_dim (RFFPipeline.self st).
Proof.
  destruct st as [g0 [pnf pnd pca clf fc pl]].
  unfold RFFPipeline.fit, RFFPipeline.sklearn_Pipeline_fit,
    RFFPipeline.feature_creator_fit_transform,
    RFFPipeline.feature_creator_fit, RFFPipeline.feature_creator_transform,
    RFFPipeline.set_new_dim, RFFPipeline.set_pipeline,
    RFFPipeline.on_classifier, bind, get, ret, lift.
  cbn -[Nat.min FeatureCreator.fit FeatureCreator.transform].
  destruct pca; cbn -[Nat.min FeatureCreator.fit FeatureCreator.transform].
  - destruct (pca_fit_transform _ X) as [[p X'] | e];
      cbn -[Nat.min FeatureCreator.fit FeatureCreator.transform]; [| auto].
    destruct (FeatureCreator.fit fc X' g0) as [[fc' | e] g1];
      cbn -[Nat.min FeatureCreator.transform]; [| auto].
    destruct (FeatureCreator.transform fc' X') as [Z | e];
      cbn -[Nat.min]; [| auto].
    destruct (clf_fit Z y clf) as [[[] | e] clf']; cbn -[Nat.min]; auto.
  - destruct (FeatureCreator.fit fc X g0) as [[fc' | e] g1];
      cbn -[FeatureCreator.transform]; [| auto].
    destruct (FeatureCreator.transform fc' X) as [Z | e]; cbn; [| auto].
    destruct (clf_fit Z y clf) as [[[] | e] clf']; cbn; auto.
Qed.

(** Consequently a second [fit] clamps the already clamped value, where a
    fresh pipeline clamps the configured one. *)
Lemma refit_new_dim (nf nd : nat) (cls : creator_class) (kw : option Kw)
    (fn : F -> F) (X1 X2 : ndarray F) (y1 y2 : Y) (g g' : G) :
  let fresh := RFFPipeline.init (P:=P) nf nd true cls kw fn in
  let st1 := snd (RFFPipeline.fit X1 y1 (RFFPipeline.mkWorld g fresh)) in
  RFFPipeline.new_dim (RFFPipeline.self (snd (RFFPipeline.fit X2 y2 st1)))
    = Nat.min (ncols X2) (Nat.min (ncols X1) nd) /\
  RFFPipeline.new_dim
    (RFFPipeline.self
       (snd (RFFPipeline.fit X2 y2 (RFFPipeline.mkWorld g' fresh))))
    = Nat.min (ncols X2) nd.
Proof.
  cbv zeta. split.
  - destruct (fit_new_dim X2 y2
                (snd (RFFPipeline.fit X1 y1
                        (RFFPipeline.mkWorld g
                           (RFFPipeline.init (P:=P) nf nd true cls kw fn)))))
      as (_ & _ & ->).
    destruct (fit_new_dim X1 y1
                (RFFPipeline.mkWorld g
                   (RFFPipeline.init (P:=P) nf nd true cls kw fn)))
      as (-> & _ & ->).
    reflexivity.
  - destruct (fit_new_dim X2 y2
                (RFFPipeline.mkWorld g'
                   (RFFPipeline.init (P:=P) nf nd true cls kw fn)))
      as (_ & _ & ->).
    reflexivity.
Qed.

(** The clamp reaches the reducer only: the creator was built by
    [__init__] with the configured [new_dim].  So when the data has fewer
    columns than [new_dim], a pipeline with reduction and a
    [RandomFeatureCreator] draws a projection of the configured width and
    fails in [transform] on the reduced data. *)
Lemma fit_clamped_Random_raises {RS : RandomStateSpec F G} {QS : QRSpec F}
    (X : ndarray F) (y : Y) (st : RFFPipeline.world F G P C) p X' :
  RFFPipeline.use_PCA (RFFPipeline.self st) = true ->
  FeatureCreator.class_ (RFFPipeline.feature_creator (RFFPipeline.self st))
    = RandomFeatureCreator ->
  FeatureCreator.new_dim (RFFPipeline.feature_creator (RFFPipeline.self st))
    = RFFPipeline.new_dim (RFFPipeline.self st) ->
  ncols X < RFFPipeline.new_dim (RFFPipeline.self st) ->
  pca_fit_transform (ncols X) X = Ok (p, X') ->
  ncols X' = ncols X ->
  1000 <= nrows X' ->
  fst (RFFPipeline.fit X y st) = Raise ValueError.
Proof.
  destruct st as [g0 [pnf pnd pca clf fc pl]].
  cbn [RFFPipeline.self RFFPipeline.use_PCA RFFPipeline.feature_creator
       RFFPipeline.new_dim].
  intros -> Cl Nd Lt Ep Ec L.
  unfold RFFPipeline.fit, RFFPipeline.sklearn_Pipeline_fit,
    RFFPipeline.feature_creator_fit_transform,
    RFFPipeline.feature_creator_fit, RFFPipeline.feature_creator_transform,
    RFFPipeline.set_new_dim, RFFPipeline.set_pipeline,
    RFFPipeline.on_classifier, bind, get, ret, lift.
  cbn -[Nat.min FeatureCreator.fit FeatureCreator.transform].
  replace (Nat.min (ncols X) pnd) with (ncols X) by lia.
  rewrite Ep. cbn -[FeatureCreator.fit FeatureCreator.transform].
  destruct (Random_fit_succeeds fc X' g0 Cl L) as (fc' & g1 & E).
  rewrite E. cbn -[FeatureCreator.transform].
  assert (NP : FeatureCreator.class_ fc <> FeatureCreatorPlaceholder)
    by (rewrite Cl; discriminate).
  destruct (fit_fitted fc fc' X' g0 g1 NP E) as (W & v & -> & _ & Cc & _).
  rewrite transform_Fourier by exact NP.
  rewrite (Random_transform_mismatch
             (FeatureCreator.set_b (FeatureCreator.set_w fc W) v) W X');
    [reflexivity | reflexivity | lia].
Qed.

End PipelineTheorems.

(* ===================================================================== *)
(** ** The example collaborators meet their interfaces *)
(* ===================================================================== *)

Section ExampleCollaborators.

Import FeatureCreator.

Context {F : Type} `{Scalar F}.

#[local] Existing Instance RandomState_counter.
#[local] Existing Instance QR_leading.

Lemma counter_spec : RandomStateSpec F nat.
Proof.
  constructor.
  - intros a k g L. cbn. unfold CounterRandom.choice.
    apply Nat.ltb_lt in L. now rewrite L.
  - intros a k g L. exists (seq 0 k), (S g). cbn.
    unfold CounterRandom.choice.
    destruct (Nat.ltb_spec a k) as [L' | _]; [lia |].
    split; [reflexivity |]. split; [apply length_seq |].
    split; [apply seq_NoDup |].
    apply Forall_forall. intros i I. apply in_seq in I. lia.
  - intros loc scale r c g. eexists _, _. cbn. unfold CounterRandom.normal.
    split; [reflexivity |].
    split; [unfold nrows; cbn; apply repeat_length |].
    split; [reflexivity |].
    apply wf_intro. cbn. intros x I. apply repeat_spec in I. subst x.
    apply repeat_length.
  - intros lo hi n g. eexists _, _. cbn. unfold CounterRandom.uniform.
    split; [reflexivity | apply repeat_length].
  - reflexivity.
  - intros df n g L. eexists _, _. cbn. unfold CounterRandom.chisquare.
    destruct (Nat.eqb_spec df 0) as [Z | _]; [lia |].
    split; [reflexivity | apply repeat_length].
Qed.

Lemma leading_spec : QRSpec F.
Proof.
  constructor. intros A WF.
  change (fst (qr A)) with (leading_columns A).
  split; [unfold leading_columns, nrows; cbn; apply length_map |].
  split; [reflexivity |].
  apply wf_intro. unfold leading_columns. cbn [rows ncols]. intros r I.
  apply in_map_iff in I. destruct I as (r0 & <- & I0).
  rewrite length_firstn, (wf_row_length A r0 WF I0). lia.
Qed.

(** The counter generator moves by one per draw, so the bandwidth
    expression leaves it one step further. *)
Lemma counter_sigma_of_state (X : ndarray F) g sigma g1 :
  sigma_of X g = (Ok sigma, g1) -> g1 = S g.
Proof.
  unfold sigma_of. intros E.
  apply bind_ok_inv in E. destruct E as (idx & g2 & Ec & E).
  apply bind_ok_inv in E. destruct E as (S0 & g3 & El & E).
  unfold ret in E. injection E as _ <-.
  unfold lift in El. injection El as _ <-.
  cbn in Ec. unfold CounterRandom.choice in Ec.
  destruct (nrows X <? 1000); [discriminate |].
  now injection Ec as _ <-.
Qed.

(** The phases that [fit] of a [RandomFeatureCreator] draws from the
    counter generator started at [g]. *)
Lemma counter_Random_fit_b (self self' : t F) X g g' :
  Random_fit self X g = (Ok self', g') ->
  b self' =
  Some (repeat (if Nat.even (S (S g)) then fneg fpi
                else fdiv (fadd (fneg fpi) fpi) f2)
               (n_features self)).
Proof.
  intros E. apply Random_fit_inv in E.
  destruct E as (sigma & g1 & W & g2 & v & Es & EW & Ev & ->).
  apply counter_sigma_of_state in Es. subst g1.
  cbn in EW. unfold CounterRandom.normal in EW. injection EW as _ <-.
  cbn in Ev. unfold CounterRandom.uniform in Ev. injection Ev as <- _.
  reflexivity.
Qed.

End ExampleCollaborators.

(* ===================================================================== *)
(** ** The theorems on concrete inputs *)
(* ===================================================================== *)

Section RealExamples.

Import FeatureCreator.
Import Examples.

#[local] Existing Instance RandomState_counter.
#[local] Existing Instance QR_leading.
#[local] Existing Instance Reducer_leading.
#[local] Existing Instance Classifier_width.

(** The array operations on small inputs, as NumPy and SciPy compute
    them. *)
Example T_2x3 :
  T X2x3 = mkArr 2 [[1; 4]; [2; 5]; [3; 6]]%R.
Proof. reflexivity. Qed.

Example matmul_2x3_3x2 :
  matmul X2x3 (T X2x3) =
  Ok (mkArr 2 [[1 * 1 + (2 * 2 + (3 * 3 + 0)); 1 * 4 + (2 * 5 + (3 * 6 + 0))];
               [4 * 1 + (5 * 2 + (6 * 3 + 0)); 4 * 4 + (5 * 5 + (6 * 6 + 0))]]%R).
Proof. reflexivity. Qed.

Example matmul_2x3_2x3 : matmul X2x3 X2x3 = Raise ValueError.
Proof. reflexivity. Qed.

Example add_broadcast_row :
  add_broadcast X2x3 [10; 20; 30]%R =
  Ok (mkArr 3 [[1 + 10; 2 + 20; 3 + 30]; [4 + 10; 5 + 20; 6 + 30]]%R).
Proof. reflexivity. Qed.

Example add_broadcast_scalar :
  add_broadcast X2x3 [10%R] =
  Ok (mkArr 3 [[1 + 10; 2 + 10; 3 + 10]; [4 + 10; 5 + 10; 6 + 10]]%R).
Proof. reflexivity. Qed.

Example add_broadcast_column :
  add_broadcast X2x1 [10; 20]%R =
  Ok (mkArr 2 [[1 + 10; 1 + 20]; [2 + 10; 2 + 20]]%R).
Proof. reflexivity. Qed.

Example add_broadcast_mismatch :
  add_broadcast X2x3 [10; 20]%R = Raise ValueError.
Proof. reflexivity. Qed.

Example np_diag_2 :
  np_diag [5; 7]%R = mkArr 2 [[5; 0]; [0; 7]]%R.
Proof. reflexivity. Qed.

Example take_rows_2x3 :
  take_rows X2x3 [1; 0; 1] =
    Ok (mkArr 3 [[4; 5; 6]; [1; 2; 3]; [4; 5; 6]]%R) /\
  take_rows X2x3 [0; 2] = Raise IndexError.
Proof. split; reflexivity. Qed.

Example pdist_3 (u v x : list R) :
  pdist (mkArr 2 [u; v; x]) =
  [sqeuclidean u v; sqeuclidean u x; sqeuclidean v x].
Proof. reflexivity. Qed.

Example sqeuclidean_2 :
  sqeuclidean [1; 2]%R [4; 6]%R = 25%R.
Proof. cbn. lra. Qed.

Example np_median_odd : np_median [3; 1; 2]%R = 2%R.
Proof.
  unfold np_median. cbn.
  repeat (destruct (Rle_dec _ _); try lra; cbn).
  all: lra.
Qed.

Example np_median_even : np_median [4; 1; 3; 2]%R = (5 / 2)%R.
Proof.
  unfold np_median. cbn.
  repeat (destruct (Rle_dec _ _); try lra; cbn).
  all: lra.
Qed.

Example predict_after_fit :
  pipe_predict (RFFPipeline.self fitted_once) X3x3 = Ok [0; 0; 0] /\
  pipe_predict (RFFPipeline.self fitted_once) X2x2 = Raise ValueError.
Proof. split; reflexivity. Qed.

Lemma nrows_constant_rows {F : Type} (r : list F) n :
  nrows (constant_rows r n) = n.
Proof. unfold nrows, constant_rows. cbn [rows]. apply repeat_length. Qed.

Lemma X1000_rows : 1000 <= nrows X1000.
Proof. unfold X1000. rewrite nrows_constant_rows. apply Nat.le_refl. Qed.

Lemma Xramp_rows : 1000 <= nrows Xramp.
Proof.
  unfold Xramp, nrows. cbn [rows]. rewrite length_map, length_seq.
  apply Nat.le_refl.
Qed.

Lemma X500_rows : nrows X500 < 1000.
Proof. unfold X500. rewrite nrows_constant_rows. lia. Qed.

Lemma R_nonneg_0 : (0 <= f0)%R.
Proof. cbn. lra. Qed.

Lemma R_nonneg_square (x : R) : (0 <= fmul x x)%R.
Proof. cbn. nra. Qed.

Lemma R_nonneg_add (x y : R) : (0 <= x)%R -> (0 <= y)%R -> (0 <= fadd x y)%R.
Proof. cbn. lra. Qed.

Lemma R_nonneg_half (x y : R) :
  (0 <= x)%R -> (0 <= y)%R -> (0 <= fdiv (fadd x y) f2)%R.
Proof. cbn. lra. Qed.

(** Fitting the example creators on the thousand rows returns. *)
Lemma rfc_fit_returns :
  exists self' g', fit rfc Xramp 0 = (Ok self', g').
Proof.
  exact (Random_fit_succeeds (RS:=counter_spec) rfc Xramp 0 eq_refl Xramp_rows).
Qed.

Lemma orfc21_fit_returns :
  exists self' g', fit orfc21 Xramp 0 = (Ok self', g').
Proof.
  apply (Orthogonal_fit_succeeds (RS:=counter_spec) (QS:=leading_spec)
           orfc21 Xramp 0 eq_refl Xramp_rows); cbn; lia.
Qed.

Lemma transform_fitted_is_cos_affine_witness :
  (exists self' g',
     fit rfc Xramp 0 = (Ok self', g') /\
     exists Z, transform self' X2x1 = Ok Z /\ shape Z = (2, 2)) /\
  (exists self' g',
     fit orfc21 Xramp 0 = (Ok self', g') /\
     exists Z, transform self' X2x1 = Ok Z /\ shape Z = (2, 2)).
Proof.
  split.
  - destruct rfc_fit_returns as (self' & g' & E).
    destruct (fit_fitted (RS:=counter_spec) (QS:=leading_spec)
                rfc self' Xramp 0 g' ltac:(discriminate) E)
      as (W0 & v0 & Es & _).
    exists self', g'. split; [exact E |].
    assert (Nd : ncols X2x1 = new_dim self') by (rewrite Es; reflexivity).
    destruct (transform_fitted_is_cos_affine (RS:=counter_spec)
                (QS:=leading_spec) rfc self' Xramp 0 g' X2x1
                ltac:(discriminate) E Nd)
      as (W & v & Z & _ & _ & _ & _ & _ & ET & Sh & _).
    exists Z. split; [exact ET |].
    rewrite Sh, Es. reflexivity.
  - destruct orfc21_fit_returns as (self' & g' & E).
    destruct (fit_fitted (RS:=counter_spec) (QS:=leading_spec)
                orfc21 self' Xramp 0 g' ltac:(discriminate) E)
      as (W0 & v0 & Es & _).
    exists self', g'. split; [exact E |].
    assert (Nd : ncols X2x1 = new_dim self') by (rewrite Es; reflexivity).
    destruct (transform_fitted_is_cos_affine (RS:=counter_spec)
                (QS:=leading_spec) orfc21 self' Xramp 0 g' X2x1
                ltac:(discriminate) E Nd)
      as (W & v & Z & _ & _ & _ & _ & _ & ET & Sh & _).
    exists Z. split; [exact ET |].
    rewrite Sh, Es. reflexivity.
Defined.

Lemma sigma_is_median_of_sample_witness :
  exists sigma g', sigma_of Xramp 0 = (Ok sigma, g') /\ (0 <= sigma)%R.
Proof.
  destruct (sigma_is_median_of_sample (RS:=counter_spec)
              (fun x => (0 <= x)%R)
              R_nonneg_0 R_nonneg_square R_nonneg_add R_nonneg_half
              Xramp 0 Xramp_rows)
    as (idx & g' & _ & _ & _ & _ & _ & Es & NN).
  eexists _, g'. split; [exact Es | exact NN].
Defined.

(** C2 fails as stated: on a thousand equal rows every pairwise distance
    is zero, and so is their median. *)
Lemma sigma_zero_on_equal_rows :
  1000 <= nrows X1000 /\
  exists g', sigma_of X1000 0 = (Ok 0%R, g') /\ ~ (0 < 0)%R.
Proof.
  split; [exact X1000_rows |].
  destruct (sigma_of_large (RS:=counter_spec) X1000 0 X1000_rows)
    as (idx & g' & _ & Li & _ & Rg & Es).
  exists g'. split; [| lra].
  rewrite Es. f_equal. f_equal.
  assert (Z : sqeuclidean [0%R] [0%R] = 0%R) by (cbn; lra).
  destruct (np_median_pdist_constant
              (mkArr (ncols X1000) (map (fun i => row X1000 i) idx)) [0%R])
    as [-> | ->].
  - unfold nrows. cbn [rows]. rewrite length_map, Li. lia.
  - cbn [rows]. apply Forall_forall. intros r I.
    apply in_map_iff in I. destruct I as (i & <- & Ii).
    rewrite Forall_forall in Rg. specialize (Rg i Ii).
    symmetry. apply (repeat_spec 1000 [0%R]).
    unfold row, X1000, constant_rows. cbn [rows].
    apply nth_In. rewrite repeat_length.
    unfold X1000 in Rg. now rewrite nrows_constant_rows in Rg.
  - exact Z.
  - rewrite Z. cbn. lra.
Qed.

Lemma fit_determined_by_generator_state_witness :
  snd (fit rfc Xramp 0) =
  snd (fit (with_params (Some X2x1) (Some [1%R]) (with_func sin rfc)) Xramp 0).
Proof.
  exact (proj1 (proj2
    (fit_determined_by_generator_state
       rfc (with_params (Some X2x1) (Some [1%R]) (with_func sin rfc))
       Xramp 0 eq_refl ltac:(discriminate) eq_refl eq_refl))).
Defined.

(** C3 fails as stated: [fit] has no seed to pass, and the same creator on
    the same data gets different phases from two states of the global
    generator (here, before and after one earlier draw). *)
Lemma fit_depends_on_generator_state :
  exists s1 g1 s2 g2,
    fit rfc Xramp 0 = (Ok s1, g1) /\
    fit rfc Xramp 1 = (Ok s2, g2) /\
    b s1 <> b s2.
Proof.
  destruct (Random_fit_succeeds (RS:=counter_spec) rfc Xramp 0 eq_refl
              Xramp_rows) as (s1 & g1 & E1).
  destruct (Random_fit_succeeds (RS:=counter_spec) rfc Xramp 1 eq_refl
              Xramp_rows) as (s2 & g2 & E2).
  exists s1, g1, s2, g2. split; [exact E1 |]. split; [exact E2 |].
  change (fit rfc Xramp 0) with (Random_fit rfc Xramp 0) in E1.
  change (fit rfc Xramp 1) with (Random_fit rfc Xramp 1) in E2.
  rewrite (counter_Random_fit_b _ _ _ _ _ E1),
          (counter_Random_fit_b _ _ _ _ _ E2).
  cbn. intros [= Eq]. pose proof PI_RGT_0. lra.
Qed.

Lemma fit_small_raises_ValueError_witness :
  fit rfc X500 0 = (Raise ValueError, 0).
Proof.
  exact (fit_small_raises_ValueError (RS:=counter_spec) rfc X500 0
           ltac:(discriminate) X500_rows).
Defined.

(** C4 fails as stated: on five hundred rows [fit] raises, but what it
    raises is [ValueError]. *)
Lemma fit_small_not_InsufficientDataError :
  nrows X500 < 1000 /\
  fst (fit rfc X500 0) = Raise ValueError /\
  fst (fit rfc X500 0) <> Raise InsufficientDataError.
Proof.
  split; [exact X500_rows |].
  rewrite (fit_small (RS:=counter_spec) rfc X500 0
             ltac:(discriminate) X500_rows).
  split; [reflexivity | discriminate].
Qed.

(** C5 fails as stated: before any [fit], the placeholder transforms
    without an error, and the Fourier creator and the pipeline raise
    [AttributeError]. *)
Lemma unfitted_not_NotFittedError :
  transform placeholder X2x1 = Ok X2x1 /\
  transform rfc X2x1 = Raise AttributeError /\
  transform orfc X2x1 = Raise AttributeError /\
  pipe_predict pipe X2x3 = Raise AttributeError /\
  transform placeholder X2x1 <> Raise NotFittedError /\
  transform rfc X2x1 <> Raise NotFittedError /\
  pipe_predict pipe X2x3 <> Raise NotFittedError.
Proof. repeat split; discriminate. Qed.

Lemma transform_width_mismatch_raises_ValueError_witness :
  exists self' g',
    fit rfc Xramp 0 = (Ok self', g') /\
    transform self' X2x3 = Raise ValueError.
Proof.
  destruct rfc_fit_returns as (self' & g' & E).
  destruct (fit_fitted (RS:=counter_spec) (QS:=leading_spec)
              rfc self' Xramp 0 g' ltac:(discriminate) E)
    as (W0 & v0 & Es & _).
  exists self', g'. split; [exact E |].
  apply (transform_width_mismatch_raises_ValueError (RS:=counter_spec)
           (QS:=leading_spec) rfc self' Xramp 0 g' X2x3
           ltac:(discriminate) E).
  rewrite Es. cbn. discriminate.
Defined.

(** C6 fails as stated: a fitted creator of width 1 raises on an input of
    width 3, but what it raises is [ValueError]. *)
Lemma width_mismatch_not_DimensionMismatchError :
  exists self' g',
    fit rfc Xramp 0 = (Ok self', g') /\
    ncols X2x3 <> new_dim self' /\
    transform self' X2x3 = Raise ValueError /\
    transform self' X2x3 <> Raise DimensionMismatchError.
Proof.
  destruct rfc_fit_returns as (self' & g' & E).
  destruct (fit_fitted (RS:=counter_spec) (QS:=leading_spec)
              rfc self' Xramp 0 g' ltac:(discriminate) E)
    as (W & v & -> & _ & Cc & _).
  eexists _, g'. split; [exact E |].
  split; [cbn; discriminate |].
  assert (T : transform (set_b (set_w rfc W) v) X2x3 = Raise ValueError).
  { change (transform (set_b (set_w rfc W) v) X2x3)
      with (Random_transform (set_b (set_w rfc W) v) X2x3).
    apply (Random_transform_mismatch _ W); [reflexivity |].
    rewrite Cc. cbn. discriminate. }
  rewrite T. split; [reflexivity | discriminate].
Qed.

Lemma Orthogonal_fit_rank_raises_ValueError_witness :
  fst (fit orfc Xramp 0) = Raise ValueError.
Proof.
  apply (Orthogonal_fit_rank_raises_ValueError (RS:=counter_spec)
           (QS:=leading_spec) orfc Xramp 0 eq_refl).
  cbn. lia.
Defined.

(** C7 fails as stated: with one feature and two dimensions [fit] of the
    orthogonal creator raises, but what it raises is [ValueError]. *)
Lemma rank_not_OrthogonalizationRankError :
  n_features orfc < new_dim orfc /\
  1000 <= nrows Xramp /\
  fst (fit orfc Xramp 0) = Raise ValueError /\
  fst (fit orfc Xramp 0) <> Raise OrthogonalizationRankError.
Proof.
  split; [cbn; lia |]. split; [exact Xramp_rows |].
  rewrite (Orthogonal_fit_rank (RS:=counter_spec) (QS:=leading_spec)
             orfc Xramp 0 eq_refl ltac:(cbn; lia)).
  split; [reflexivity | discriminate].
Qed.

(** C8.  The code at the failing input: a pipeline configured with
    [new_dim = 3] is fitted on two columns and then on three.  The first
    [fit] overwrites [new_dim] with 2, so the second reduces to two
    components and trains the classifier on two columns, where a fresh
    pipeline fitted on the same three columns keeps three. *)
Theorem refit_keeps_clamped_new_dim :
  RFFPipeline.new_dim (RFFPipeline.self refitted) = 2 /\
  RFFPipeline.new_dim (RFFPipeline.self fitted_once) = 3 /\
  RFFPipeline.pipeline (RFFPipeline.self refitted) = Some (Some 2) /\
  RFFPipeline.pipeline (RFFPipeline.self fitted_once) = Some (Some 3) /\
  RFFPipeline.classifier (RFFPipeline.self refitted) = Some 2 /\
  RFFPipeline.classifier (RFFPipeline.self fitted_once) = Some 3 /\
  RFFPipeline.rng refitted = RFFPipeline.rng fitted_once /\
  refitted <> fitted_once.
Proof.
  repeat split; try reflexivity.
  intros E. apply (f_equal (fun s => RFFPipeline.new_dim (RFFPipeline.self s))) in E.
  discriminate E.
Qed.

End RealExamples.

(* ===================================================================== *)
(** ** More on the feature creators *)
(* ===================================================================== *)

Section FeatureCreatorConfig.

Import FeatureCreator.

Context {F G : Type} `{Scalar F} `{RandomState F G} `{QR F}.

(** A [fit] that returns has written [w] and [b] and nothing else. *)
Lemma fit_keeps_config (self self' : t F) X (g g' : G) :
  fit self X g = (Ok self', g') ->
  class_ self' = class_ self /\
  n_features self' = n_features self /\
  new_dim self' = new_dim self /\
  func self' = func self.
Proof.
  unfold fit. destruct (class_ self) eqn:Cl; intros E.
  - unfold Placeholder_fit, ret in E. injection E as <- _. auto.
  - apply Random_fit_inv in E.
    destruct E as (sigma & g1 & W & g2 & v & _ & _ & _ & ->).
    cbn. auto.
  - apply Orthogonal_fit_inv in E.
    destruct E as (sigma & g1 & w0 & g2 & S & g3 & W & v
                   & _ & _ & _ & _ & _ & ->).
    cbn. auto.
Qed.

(** X3.  Whatever the class, a [fit] that returns leaves the class,
    [n_features], [new_dim] and [func] of the object as they were; on the
    placeholder it leaves the whole object and the generator as they
    were, and on a Fourier creator both [w] and [b] are set afterwards. *)
Theorem fit_writes_only_w_and_b (self self' : t F) X (g g' : G) :
  fit self X g = (Ok self', g') ->
  class_ self' = class_ self /\
  n_features self' = n_features self /\
  new_dim self' = new_dim self /\
  func self' = func self /\
  (class_ self = FeatureCreatorPlaceholder -> self' = self /\ g' = g) /\
  (class_ self <> FeatureCreatorPlaceholder ->
   exists W v, w self' = Some W /\ b self' = Some v).
Proof.
  intros E. destruct (fit_keeps_config self self' X g g' E) as (A & B & C & D).
  repeat (split; [assumption |]). split.
  - intros Cl. unfold fit in E. rewrite Cl in E.
    unfold Placeholder_fit, ret in E. now injection E as <- <-.
  - intros NP. unfold fit in E. destruct (class_ self); [congruence | |].
    + apply Random_fit_inv in E.
      destruct E as (sigma & g1 & W & g2 & v & _ & _ & _ & ->).
      exists W, v. split; reflexivity.
    + apply Orthogonal_fit_inv in E.
      destruct E as (sigma & g1 & w0 & g2 & S & g3 & W & v
                     & _ & _ & _ & _ & _ & ->).
      exists W, v. split; reflexivity.
Qed.

(** X5.  [transform] works row by row: on the rows of two batches stacked
    it returns the two results stacked, and it raises on the stack exactly
    the exception it raises on either batch, since every check it makes
    is on widths. *)
Theorem transform_stacked (self : t F) (c : nat) (rs1 rs2 : list (list F)) :
  transform self (mkArr c (rs1 ++ rs2)) =
  match transform self (mkArr c rs1), transform self (mkArr c rs2) with
  | Ok Z1, Ok Z2 => Ok (mkArr (ncols Z1) (rows Z1 ++ rows Z2))
  | Raise e, _ => Raise e
  | _, Raise e => Raise e
  end.
Proof.
  assert (R : Random_transform self (mkArr c (rs1 ++ rs2)) =
              match Random_transform self (mkArr c rs1),
                    Random_transform self (mkArr c rs2) with
              | Ok Z1, Ok Z2 => Ok (mkArr (ncols Z1) (rows Z1 ++ rows Z2))
              | Raise e, _ => Raise e
              | _, Raise e => Raise e
              end).
  { unfold Random_transform.
    destruct (w self) as [W |]; [| reflexivity].
    unfold matmul. cbn [ncols rows].
    destruct (c =? nrows (T W)); [| reflexivity].
    destruct (b self) as [v |]; [| reflexivity].
    unfold add_broadcast. cbn [ncols rows].
    destruct (length v =? ncols (T W)).
    { unfold np_cos. cbn [ncols rows]. now rewrite !map_app. }
    destruct (length v =? 1).
    { unfold np_cos. cbn [ncols rows]. now rewrite !map_app. }
    destruct (ncols (T W) =? 1); [| reflexivity].
    unfold np_cos. cbn [ncols rows]. now rewrite !map_app. }
  unfold transform. destruct (class_ self); [reflexivity | exact R | exact R].
Qed.

End FeatureCreatorConfig.

Section FitReturns.

Import FeatureCreator.

Context {F G : Type} `{Scalar F} `{RandomState F G} `{QR F}.
Context {RS : RandomStateSpec F G} {QS : QRSpec F}.

(** X1.  [fit] of a [RandomFeatureCreator] returns exactly when the data
    has at least 1000 rows, whatever [n_features] and [new_dim] are. *)
Theorem Random_fit_returns_iff (self : t F) X g :
  class_ self = RandomFeatureCreator ->
  (exists self' g', fit self X g = (Ok self', g')) <-> 1000 <= nrows X.
Proof.
  intros Cl. split.
  - intros (self' & g' & E).
    destruct (Nat.lt_ge_cases (nrows X) 1000) as [Small | L]; [| exact L].
    rewrite (fit_small self X g) in E; [discriminate E | | exact Small].
    rewrite Cl. discriminate.
  - now apply Random_fit_succeeds.
Qed.

(** With [new_dim = 0] the orthogonal [fit] cannot return: the
    chi-squared draw refuses zero degrees of freedom. *)
Lemma Orthogonal_fit_new_dim_0 (self self' : t F) X g g' :
  new_dim self = 0 -> Orthogonal_fit self X g <> (Ok self', g').
Proof.
  intros Z E. apply Orthogonal_fit_inv in E.
  destruct E as (sigma & g1 & w0 & g2 & S & g3 & W & v
                 & _ & _ & ES & _).
  rewrite Z, chisquare_df0 in ES. discriminate ES.
Qed.

(** X2.  [fit] of an [OrthogonalRandomFeatureCreator] returns exactly when
    the data has at least 1000 rows and [0 < new_dim <= n_features]. *)
Theorem Orthogonal_fit_returns_iff (self : t F) X g :
  class_ self = OrthogonalRandomFeatureCreator ->
  (exists self' g', fit self X g = (Ok self', g')) <->
  1000 <= nrows X /\ 0 < new_dim self /\ new_dim self <= n_features self.
Proof.
  intros Cl. split.
  - intros (self' & g' & E).
    destruct (Nat.lt_ge_cases (nrows X) 1000) as [Small | L].
    { rewrite (fit_small self X g) in E; [discriminate E | | exact Small].
      rewrite Cl. discriminate. }
    split; [exact L |].
    destruct (Nat.eq_dec (new_dim self) 0) as [Z | NZ].
    { exfalso. unfold fit in E. rewrite Cl in E.
      exact (Orthogonal_fit_new_dim_0 self self' X g g' Z E). }
    split; [lia |].
    destruct (Nat.lt_ge_cases (n_features self) (new_dim self)) as [Lt | Ge];
      [| exact Ge].
    pose proof (Orthogonal_fit_rank self X g Cl Lt) as R.
    rewrite E in R. discriminate R.
  - intros (L & Pos & Le). now apply Orthogonal_fit_succeeds.
Qed.

End FitReturns.

(* ===================================================================== *)
(** ** More on the pipeline *)
(* ===================================================================== *)

Section PipelineDataflow.

Context {F G P C Y Kw : Type}.
Context `{Scalar F} `{RandomState F G} `{QR F}.
Context `{Reducer F P} `{Classifier F C Y Kw}.

Ltac unfold_fit :=
  unfold RFFPipeline.fit, RFFPipeline.sklearn_Pipeline_fit,
    RFFPipeline.feature_creator_fit_transform,
    RFFPipeline.feature_creator_fit, RFFPipeline.feature_creator_transform,
    RFFPipeline.set_new_dim, RFFPipeline.set_pipeline,
    RFFPipeline.on_classifier, bind, get, ret, lift.

(** The stages behind a [fit] that returns. *)
Lemma fit_ok_inv (X : ndarray F) (y : Y) (st st' : RFFPipeline.world F G P C) :
  RFFPipeline.fit X y st = (Ok tt, st') ->
  let s := RFFPipeline.self st in
  let nd := if RFFPipeline.use_PCA s
            then Nat.min (ncols X) (RFFPipeline.new_dim s)
            else RFFPipeline.new_dim s in
  exists p X' fc' g1 Z clf',
    (if RFFPipeline.use_PCA s
     then exists q, pca_fit_transform nd X = Ok (q, X') /\ p = Some q
     else p = None /\ X' = X) /\
    FeatureCreator.fit (RFFPipeline.feature_creator s) X' (RFFPipeline.rng st)
      = (Ok fc', g1) /\
    FeatureCreator.transform fc' X' = Ok Z /\
    clf_fit Z y (RFFPipeline.classifier s) = (Ok tt, clf') /\
    st' = RFFPipeline.mkWorld g1
            (RFFPipeline.mk (RFFPipeline.n_features s) nd
               (RFFPipeline.use_PCA s) clf' fc' (Some p)).
Proof.
  destruct st as [g0 [pnf pnd pca clf fc pl]].
  unfold_fit.
  cbn -[Nat.min FeatureCreator.fit FeatureCreator.transform].
  destruct pca; cbn -[Nat.min FeatureCreator.fit FeatureCreator.transform].
  - destruct (pca_fit_transform _ X) as [[q X'] | e] eqn:Ep;
      cbn -[Nat.min FeatureCreator.fit FeatureCreator.transform];
      [| discriminate].
    destruct (FeatureCreator.fit fc X' g0) as [[fc' | e] g1] eqn:Ef;
      cbn -[Nat.min FeatureCreator.transform]; [| discriminate].
    destruct (FeatureCreator.transform fc' X') as [Z | e] eqn:Et;
      cbn -[Nat.min]; [| discriminate].
    destruct (clf_fit Z y clf) as [[[] | e] clf'] eqn:Ec;
      cbn -[Nat.min]; [| discriminate].
    intros E. injection E as E. subst st'.
    exists (Some q), X', fc', g1, Z, clf'.
    split; [exists q; split; reflexivity |].
    repeat (split; [assumption || reflexivity |]). reflexivity.
  - destruct (FeatureCreator.fit fc X g0) as [[fc' | e] g1] eqn:Ef;
      cbn -[FeatureCreator.transform]; [| discriminate].
    destruct (FeatureCreator.transform fc' X) as [Z | e] eqn:Et;
      cbn; [| discriminate].
    destruct (clf_fit Z y clf) as [[[] | e] clf'] eqn:Ec; cbn; [| discriminate].
    intros E. injection E as E. subst st'.
    exists None, X, fc', g1, Z, clf'.
    split; [split; reflexivity |].
    repeat (split; [assumption || reflexivity |]). reflexivity.
Qed.

(** X7.  [self.pipeline] is assigned last: a [fit] that raises leaves it
    as it was (an unfitted pipeline stays unfitted), and a [fit] that
    returns leaves a fitted pipeline that has a ["pca"] step exactly when
    [use_PCA] is set. *)
Theorem fit_assigns_pipeline_last (X : ndarray F) (y : Y)
    (st : RFFPipeline.world F G P C) :
  match fst (RFFPipeline.fit X y st) with
  | Ok _ =>
      exists p,
        RFFPipeline.pipeline (RFFPipeline.self (snd (RFFPipeline.fit X y st)))
          = Some p /\
        (match p with Some _ => true | None => false end)
          = RFFPipeline.use_PCA (RFFPipeline.self st)
  | Raise _ =>
      RFFPipeline.pipeline (RFFPipeline.self (snd (RFFPipeline.fit X y st)))
        = RFFPipeline.pipeline (RFFPipeline.self st)
  end.
Proof.
  destruct st as [g0 [pnf pnd pca clf fc pl]].
  unfold_fit.
  cbn -[Nat.min FeatureCreator.fit FeatureCreator.transform].
  destruct pca; cbn -[Nat.min FeatureCreator.fit FeatureCreator.transform].
  - destruct (pca_fit_transform _ X) as [[q X'] | e];
      cbn -[Nat.min FeatureCreator.fit FeatureCreator.transform];
      [| reflexivity].
    destruct (FeatureCreator.fit fc X' g0) as [[fc' | e] g1];
      cbn -[Nat.min FeatureCreator.transform]; [| reflexivity].
    destruct (FeatureCreator.transform fc' X') as [Z | e];
      cbn -[Nat.min]; [| reflexivity].
    destruct (clf_fit Z y clf) as [[[] | e] clf'];
      cbn -[Nat.min]; [| reflexivity].
    exists (Some q). split; reflexivity.
  - destruct (FeatureCreator.fit fc X g0) as [[fc' | e] g1];
      cbn -[FeatureCreator.transform]; [| reflexivity].
    destruct (FeatureCreator.transform fc' X) as [Z | e]; cbn; [| reflexivity].
    destruct (clf_fit Z y clf) as [[[] | e] clf']; cbn; [| reflexivity].
    exists None. split; reflexivity.
Qed.

(** X11.  Whether it returns or raises, [fit] of the pipeline never
    changes [n_features] or [use_PCA], never raises [new_dim], and never
    changes the class, [n_features], [new_dim] or [func] of the creator
    built by [__init__]. *)
Theorem fit_keeps_configuration (X : ndarray F) (y : Y)
    (st : RFFPipeline.world F G P C) :
  let s := RFFPipeline.self st in
  let s' := RFFPipeline.self (snd (RFFPipeline.fit X y st)) in
  RFFPipeline.n_features s' = RFFPipeline.n_features s /\
  RFFPipeline.use_PCA s' = RFFPipeline.use_PCA s /\
  RFFPipeline.new_dim s' <= RFFPipeline.new_dim s /\
  FeatureCreator.class_ (RFFPipeline.feature_creator s')
    = FeatureCreator.class_ (RFFPipeline.feature_creator s) /\
  FeatureCreator.n_features (RFFPipeline.feature_creator s')
    = FeatureCreator.n_features (RFFPipeline.feature_creator s) /\
  FeatureCreator.new_dim (RFFPipeline.feature_creator s')
    = FeatureCreator.new_dim (RFFPipeline.feature_creator s) /\
  FeatureCreator.func (RFFPipeline.feature_creator s')
    = FeatureCreator.func (RFFPipeline.feature_creator s).
Proof.
  cbv zeta.
  destruct (fit_new_dim X y st) as (U & N & D).
  split; [exact N |]. split; [exact U |].
  split.
  { rewrite D. destruct (RFFPipeline.use_PCA (RFFPipeline.self st));
      [apply Nat.le_min_r | apply Nat.le_refl]. }
  destruct st as [g0 [pnf pnd pca clf fc pl]].
  unfold_fit.
  cbn -[Nat.min FeatureCreator.fit FeatureCreator.transform].
  assert (K : forall X' g1 r,
             FeatureCreator.fit fc X' g0 = (r, g1) ->
             match r with
             | Ok fc' =>
                 FeatureCreator.class_ fc' = FeatureCreator.class_ fc /\
                 FeatureCreator.n_features fc' = FeatureCreator.n_features fc /\
                 FeatureCreator.new_dim fc' = FeatureCreator.new_dim fc /\
                 FeatureCreator.func fc' = FeatureCreator.func fc
             | Raise _ => True
             end).
  { intros X' g1 [fc' | e] E; [| exact I].
    exact (fit_keeps_config fc fc' X' g0 g1 E). }
  destruct pca; cbn -[Nat.min FeatureCreator.fit FeatureCreator.transform].
  - destruct (pca_fit_transform _ X) as [[q X'] | e];
      cbn -[Nat.min FeatureCreator.fit FeatureCreator.transform]; [| auto].
    specialize (K X').
    destruct (FeatureCreator.fit fc X' g0) as [[fc' | e] g1];
      cbn -[Nat.min FeatureCreator.transform]; [| auto].
    specialize (K g1 _ eq_refl).
    destruct (FeatureCreator.transform fc' X') as [Z | e];
      cbn -[Nat.min]; [| exact K].
    destruct (clf_fit Z y clf) as [[[] | e] clf']; cbn -[Nat.min]; exact K.
  - specialize (K X).
    destruct (FeatureCreator.fit fc X g0) as [[fc' | e] g1];
      cbn -[FeatureCreator.transform]; [| auto].
    specialize (K g1 _ eq_refl).
    destruct (FeatureCreator.transform fc' X) as [Z | e]; cbn; [| exact K].
    destruct (clf_fit Z y clf) as [[[] | e] clf']; cbn; exact K.
Qed.

End PipelineDataflow.

Section PipelineComposition.

Context {F G P C Y Kw : Type}.
Context `{Scalar F} `{RandomState F G} `{QR F}.
Context `{Reducer F P} `{Classifier F C Y Kw}.


(** X10.  Without reduction, after a [fit] that returns, [predict] and
    [predict_proba] on the training data hand the classifier the very
    feature matrix it was trained on. *)
Theorem predict_on_training_data (X : ndarray F) (y : Y)
    (st st' : RFFPipeline.world F G P C) :
  RFFPipeline.use_PCA (RFFPipeline.self st) = false ->
  RFFPipeline.fit X y st = (Ok tt, st') ->
  exists Z,
    clf_fit Z y (RFFPipeline.classifier (RFFPipeline.self st))
      = (Ok tt, RFFPipeline.classifier (RFFPipeline.self st')) /\
    RFFPipeline.predict (RFFPipeline.self st') X
      = clf_predict (RFFPipeline.classifier (RFFPipeline.self st')) Z /\
    RFFPipeline.predict_proba (RFFPipeline.self st') X
      = clf_predict_proba (RFFPipeline.classifier (RFFPipeline.self st')) Z.
Proof.
  intros U E. apply fit_ok_inv in E. cbv zeta in E. rewrite U in E.
  destruct E as (p & X' & fc' & g1 & Z & clf' & (-> & ->) & Ef & Et & Ec & ->).
  exists Z.
  unfold RFFPipeline.predict, RFFPipeline.predict_proba,
    RFFPipeline.sklearn_Pipeline_transform.
  cbn [RFFPipeline.self RFFPipeline.feature_creator RFFPipeline.classifier
       RFFPipeline.pipeline].
  rewrite Et. repeat split. exact Ec.
Qed.


(** X9.  Without reduction, [fit] of a pipeline around a Fourier creator
    on fewer than 1000 rows raises the [ValueError] of the sampling call
    and changes nothing: neither the object nor the generator. *)
Theorem pipeline_fit_small_changes_nothing {RS : RandomStateSpec F G}
    (X : ndarray F) (y : Y) (st : RFFPipeline.world F G P C) :
  RFFPipeline.use_PCA (RFFPipeline.self st) = false ->
  FeatureCreator.class_ (RFFPipeline.feature_creator (RFFPipeline.self st))
    <> FeatureCreatorPlaceholder ->
  nrows X < 1000 ->
  RFFPipeline.fit X y st = (Raise ValueError, st).
Proof.
  destruct st as [g0 [pnf pnd pca clf fc pl]].
  cbn [RFFPipeline.self RFFPipeline.use_PCA RFFPipeline.feature_creator].
  intros -> NP Small.
  unfold RFFPipeline.fit, RFFPipeline.sklearn_Pipeline_fit,
    RFFPipeline.feature_creator_fit_transform,
    RFFPipeline.feature_creator_fit, RFFPipeline.feature_creator_transform,
    RFFPipeline.set_new_dim, RFFPipeline.set_pipeline,
    RFFPipeline.on_classifier, bind, get, ret, lift.
  cbn -[FeatureCreator.fit FeatureCreator.transform].
  now rewrite (fit_small fc X g0 NP Small).
Qed.

End PipelineComposition.

(* ===================================================================== *)
(** ** More on the bandwidth *)
(* ===================================================================== *)

Section BandwidthShape.

Import FeatureCreator.

Context {F G : Type} `{Scalar F} `{RandomState F G}.
Context {RS : RandomStateSpec F G}.

(** The condensed distance vector of [n] rows has [n (n - 1) / 2]
    entries. *)
Lemma pdist_rows_length (rs : list (list F)) :
  2 * length (pdist_rows rs) = length rs * (length rs - 1).
Proof.
  induction rs as [| r rs IH]; [reflexivity |].
  cbn [pdist_rows length]. rewrite length_app, length_map.
  destruct rs as [| r' rs']; [reflexivity |].
  cbn [length] in *. nia.
Qed.

(** X12.  The sample has 1000 rows, so its pairwise distances are
    [1000 * 999 / 2] in number, an even number: sigma is always the
    half-sum of the two middle entries of the sorted distances, never a
    single middle entry and never [nan]. *)
Theorem sigma_is_half_sum_of_middle_pair (X : ndarray F) (g : G) :
  1000 <= nrows X ->
  exists idx g',
    choice (nrows X) 1000 g = (Ok idx, g') /\
    let d := sort (pdist (mkArr (ncols X) (map (fun i => row X i) idx))) in
    2 * length d = 1000 * 999 /\
    Nat.even (length d) = true /\
    sigma_of X g =
      (Ok (fdiv (fadd (nth (length d / 2 - 1) d f0)
                      (nth (length d / 2) d f0)) f2), g').
Proof.
  intros L.
  destruct (sigma_of_large X g L) as (idx & g' & Ec & Li & _ & _ & Es).
  exists idx, g'. split; [exact Ec |]. cbv zeta.
  set (l := pdist (mkArr (ncols X) (map (fun i => row X i) idx))) in *.
  assert (Ld : 2 * length l = 1000 * 999).
  { unfold l, pdist. cbn [rows].
    rewrite pdist_rows_length, length_map, Li. reflexivity. }
  assert (Ll : length l = 2 * (250 * 999)) by lia.
  assert (Ev : Nat.even (length l) = true).
  { rewrite Ll, Nat.even_mul. reflexivity. }
  rewrite sort_length.
  split; [exact Ld |]. split; [exact Ev |].
  rewrite Es. f_equal. f_equal. unfold np_median.
  rewrite Ev.
  destruct (Nat.eqb_spec (length l) 0) as [Z | _]; [lia | reflexivity].
Qed.

End BandwidthShape.

(* ===================================================================== *)
(** ** Over the reals: the range of the features and the orthogonal
       projection *)
(* ===================================================================== *)

Section RealFeatures.

Import FeatureCreator.

Context {G : Type} `{RandomState R G} `{QR R}.
Context {RS : RandomStateSpec R G} {QS : QRSpec R}.


(** The inner product with a column of a diagonal matrix picks one
    entry. *)
Lemma dot_diag_column (f : nat -> R) (j : nat) (u : list R) (a : nat) :
  dot u (map (fun i => if i =? j then f i else 0%R) (seq a (length u))) =
  if (a <=? j) && (j <? a + length u)
  then (nth (j - a) u 0 * f j)%R
  else 0%R.
Proof.
  revert a. induction u as [| x u IH]; intros a.
  - cbn [length seq map]. unfold dot. cbn [combine map fold_right].
    destruct (Nat.leb_spec a j); destruct (Nat.ltb_spec j (a + 0));
      cbn [andb]; try reflexivity; lia.
  - cbn [length seq map]. unfold dot in *. cbn [combine map fold_right fst snd].
    rewrite IH. cbn [fadd fmul f0 Scalar_R].
    destruct (Nat.eqb_spec a j) as [-> | NE].
    + rewrite Nat.leb_refl.
      destruct (Nat.leb_spec (S j) j) as [Bad | _]; [lia |].
      destruct (Nat.ltb_spec j (j + S (length u))) as [_ | Bad]; [| lia].
      cbn [andb]. rewrite Nat.sub_diag. cbn [nth]. lra.
    + destruct (Nat.leb_spec a j) as [Le | Gt].
      * destruct (Nat.leb_spec (S a) j) as [_ | Bad]; [| lia].
        cbn [andb].
        replace (j <? a + S (length u)) with (j <? S a + length u)
          by (f_equal; lia).
        destruct (j <? S a + length u); [| lra].
        replace (j - a) with (S (j - S a)) by lia. cbn [nth]. lra.
      * destruct (Nat.leb_spec (S a) j) as [Bad | _]; [lia |].
        cbn [andb]. lra.
Qed.

(** Multiplying on the right by [np.diag(s)] scales column [j] by
    [s[j]]. *)
Lemma matmul_diag_entry (Q M : ndarray R) (s : list R) i j :
  wf Q = true ->
  matmul Q (np_diag s) = Ok M ->
  i < nrows Q -> j < length s ->
  entry M i j = (entry Q i j * nth j s 0)%R.
Proof.
  intros WF E Hi Hj.
  unfold matmul in E.
  destruct (Nat.eqb_spec (ncols Q) (nrows (np_diag s))) as [Ec | _];
    [| discriminate].
  set (D := T (np_diag s)) in E.
  injection E as <-.
  destruct (np_diag_shape s) as [DR DC]. rewrite DR in Ec.
  unfold entry, row. cbn [rows].
  rewrite (nth_map_lt _ (rows Q) [] [] i Hi).
  assert (Lr : length (nth i (rows Q) []) = length s).
  { rewrite <- Ec. apply wf_row_length; [exact WF |]. now apply nth_In. }
  assert (LT : length (rows D) = length s).
  { change (length (rows D)) with (nrows (T (np_diag s))).
    now rewrite nrows_T. }
  rewrite (nth_map_lt _ (rows D) [] f0 j) by (rewrite LT; exact Hj).
  assert (Col : nth j (rows D) [] =
                map (fun k => if k =? j then nth k s 0%R else 0%R)
                    (seq 0 (length s))).
  { unfold D, T. cbn [rows]. rewrite DC.
    rewrite (nth_map_lt _ (seq 0 (length s)) 0 [] j)
      by (rewrite length_seq; exact Hj).
    rewrite seq_nth by exact Hj. cbn [Nat.add].
    unfold np_diag. cbn [rows]. rewrite map_map.
    apply map_ext. intros k.
    rewrite (nth_map_lt _ (seq 0 (length s)) 0 f0 j)
      by (rewrite length_seq; exact Hj).
    rewrite seq_nth by exact Hj. reflexivity. }
  rewrite Col, <- Lr.
  rewrite (dot_diag_column (fun k => nth k s 0%R) j (nth i (rows Q) []) 0).
  cbn [Nat.leb andb Nat.add]. rewrite Lr.
  destruct (Nat.ltb_spec j (length s)) as [_ | Bad]; [| lia].
  now rewrite Nat.sub_0_r.
Qed.

(** X6.  After a [fit] of the orthogonal creator that returns, [w] is the
    first factor [Q] of the decomposition of the normal draw with its
    column [j] scaled by the square root of the [j]-th chi-squared draw:
    [w[i][j] = Q[i][j] * sqrt(c[j])]. *)
Theorem Orthogonal_w_is_Q_with_scaled_columns (self self' : t R) X g g' :
  class_ self = OrthogonalRandomFeatureCreator ->
  fit self X g = (Ok self', g') ->
  exists sigma g1 w0 g2 c g3 W,
    sigma_of X g = (Ok sigma, g1) /\
    normal 0%R (scale_of sigma) (n_features self) (new_dim self) g1
      = (Ok w0, g2) /\
    chisquare (new_dim self) (new_dim self) g2 = (Ok c, g3) /\
    w self' = Some W /\
    forall i j, i < n_features self -> j < new_dim self ->
      entry W i j = (entry (fst (qr w0)) i j * sqrt (nth j c 0))%R.
Proof.
  intros Cl E. unfold fit in E. rewrite Cl in E.
  apply Orthogonal_fit_inv in E.
  destruct E as (sigma & g1 & w0 & g2 & c & g3 & W & v
                 & Es & Ew & Ec & EM & _ & ->).
  exists sigma, g1, w0, g2, c, g3, W.
  repeat (split; [assumption || reflexivity |]).
  intros i j Hi Hj.
  destruct (normal_shape f0 (scale_of sigma) (n_features self)
              (new_dim self) g1) as (w0' & g2' & Ew' & Rw & Cw & WF).
  rewrite Ew in Ew'. injection Ew' as <- <-.
  destruct (qr_shape w0 WF) as (QR_rows & _ & QWF).
  assert (Lc : length c = new_dim self).
  { destruct (chisquare_shape (new_dim self) (new_dim self) g2
                ltac:(lia)) as (c' & g3' & Ec' & Lc).
    rewrite Ec in Ec'. now injection Ec' as <- <-. }
  rewrite (matmul_diag_entry (fst (qr w0)) W (np_sqrt c) i j QWF EM).
  - unfold np_sqrt.
    rewrite (nth_map_lt _ c 0%R _ j) by (rewrite Lc; exact Hj).
    reflexivity.
  - rewrite QR_rows, Rw. exact Hi.
  - unfold np_sqrt. rewrite length_map, Lc. exact Hj.
Qed.

End RealFeatures.

(* ===================================================================== *)
(** ** The further theorems on concrete inputs *)
(* ===================================================================== *)

Section MoreRealExamples.

Import FeatureCreator.
Import Examples.
Import MoreExamples.

#[local] Existing Instance RandomState_counter.
#[local] Existing Instance QR_leading.
#[local] Existing Instance Reducer_leading.
#[local] Existing Instance Classifier_width.

Lemma Random_fit_returns_iff_witness :
  exists self' g', fit rfc Xramp 0 = (Ok self', g').
Proof.
  exact (proj2 (Random_fit_returns_iff (RS:=counter_spec) rfc Xramp 0 eq_refl)
               Xramp_rows).
Defined.

Lemma Orthogonal_fit_returns_iff_witness :
  exists self' g', fit orfc21 Xramp 0 = (Ok self', g').
Proof.
  apply (proj2 (Orthogonal_fit_returns_iff (RS:=counter_spec)
                  (QS:=leading_spec) orfc21 Xramp 0 eq_refl)).
  split; [exact Xramp_rows | cbn; lia].
Defined.

Lemma fit_writes_only_w_and_b_witness :
  exists self' g',
    fit rfc Xramp 0 = (Ok self', g') /\
    n_features self' = 2 /\ new_dim self' = 1 /\
    exists W v, w self' = Some W /\ b self' = Some v.
Proof.
  destruct rfc_fit_returns as (self' & g' & E).
  exists self', g'. split; [exact E |].
  destruct (fit_writes_only_w_and_b rfc self' Xramp 0 g' E)
    as (_ & N & D & _ & _ & S).
  split; [exact N |]. split; [exact D |].
  apply S. discriminate.
Defined.


Lemma Orthogonal_w_is_Q_with_scaled_columns_witness :
  exists self' g' W,
    fit orfc21 Xramp 0 = (Ok self', g') /\
    w self' = Some W /\
    exists w0 c,
      forall i j, i < 2 -> j < 1 ->
        entry W i j = (entry (fst (qr w0)) i j * sqrt (nth j c 0))%R.
Proof.
  destruct orfc21_fit_returns as (self' & g' & E).
  destruct (Orthogonal_w_is_Q_with_scaled_columns (RS:=counter_spec)
              (QS:=leading_spec) orfc21 self' Xramp 0 g' eq_refl E)
    as (sigma & g1 & w0 & g2 & c & g3 & W & _ & _ & _ & EW & En).
  exists self', g', W. split; [exact E |]. split; [exact EW |].
  exists w0, c. exact En.
Defined.


Lemma pipeline_fit_small_changes_nothing_witness :
  pipe_fit X500 y3 (RFFPipeline.mkWorld 0 pipe_rfc)
  = (Raise ValueError, RFFPipeline.mkWorld 0 pipe_rfc).
Proof.
  apply (pipeline_fit_small_changes_nothing (RS:=counter_spec)).
  - reflexivity.
  - discriminate.
  - exact X500_rows.
Defined.

Lemma pipe_plain_fit_returns :
  pipe_fit X3x3 y3 (RFFPipeline.mkWorld 0 pipe_plain)
  = (Ok tt, snd (pipe_fit X3x3 y3 (RFFPipeline.mkWorld 0 pipe_plain))).
Proof. reflexivity. Qed.


Lemma predict_on_training_data_witness :
  exists Z,
    pipe_predict
      (RFFPipeline.self
         (snd (pipe_fit X3x3 y3 (RFFPipeline.mkWorld 0 pipe_plain)))) X3x3
    = clf_predict
        (RFFPipeline.classifier
           (RFFPipeline.self
              (snd (pipe_fit X3x3 y3 (RFFPipeline.mkWorld 0 pipe_plain))))) Z.
Proof.
  destruct (predict_on_training_data (G:=nat) X3x3 y3
              (RFFPipeline.mkWorld 0 pipe_plain)
              (snd (pipe_fit X3x3 y3 (RFFPipeline.mkWorld 0 pipe_plain)))
              eq_refl pipe_plain_fit_returns)
    as (Z & _ & Ep & _).
  exists Z. exact Ep.
Defined.


Lemma sigma_is_half_sum_of_middle_pair_witness :
  exists sigma g', sigma_of Xramp 0 = (Ok sigma, g').
Proof.
  destruct (sigma_is_half_sum_of_middle_pair (RS:=counter_spec) Xramp 0
              Xramp_rows)
    as (idx & g' & _ & _ & _ & Es).
  eexists _, g'. exact Es.
Defined.

End MoreRealExamples.
